(** * hardhat.config.ts: operator tasks of the Beefy contracts repository

    A shallow embedding of the tasks declared in [hardhat.config.ts]
    ([node], [panic], [unpause], [harvest], [transfer],
    [generate_accounts]) and of the module-level loading of
    [deployerAccount], followed by the properties of these tasks.

    JavaScript is embedded as follows.
    - An [async] function body is a computation in a state-and-exception
      monad [M S]: [await e] is sequencing, a rejected promise or a [throw]
      is the outcome [Throw], [try]/[catch]/[finally] are combinators.
    - The process and its surroundings (file system, descriptor table,
      [process.env], the mutable [hre.config.networks], and the console) are
      the state [World]. Every call that leaves the process is recorded, in
      order, in [trace].
    - The collaborators reached through [hre] (ethers, hardhat-deploy, the
      chain) are the fields of the record [Hre]; each gives the outcome of
      the corresponding call.
    - Truthiness tests ([if (x)]) are written out for the type at hand. *)

From stdpp Require Import gmap strings list fin_maps fin_sets.
From Stdlib Require Import ZArith.

Open Scope Z_scope.
Open Scope stdpp_scope.

(** ** JavaScript values, errors and control flow *)

Module Js.

(** A thrown value. [code] is the [code] property ([e.code]), absent on
    errors that are not system errors; [description] is what string
    conversion ([`${err}`]) yields. *)
Record Error := mkError { code : option string; description : string }.

#[global] Instance Error_eq_dec : EqDecision Error.
Proof. solve_decision. Defined.

Inductive outcome (A : Type) : Type :=
| Return (a : A)
| Throw (e : Error).
Arguments Return {A} a.
Arguments Throw {A} e.

(** Computations over a state [S] that may throw. *)
Definition M (S A : Type) : Type := S → outcome A * S.

Definition ret {S A} (a : A) : M S A := λ s, (Return a, s).

Definition bind {S A B} (m : M S A) (k : A → M S B) : M S B :=
  λ s, match m s with
       | (Return a, s') => k a s'
       | (Throw e, s') => (Throw e, s')
       end.

Definition throw {S A} (e : Error) : M S A := λ s, (Throw e, s).

(** [await p] for a promise that settles to [o]. *)
Definition settle {S A} (o : outcome A) : M S A := λ s, (o, s).

(** [try { body } catch (e) { handler e }] *)
Definition try_catch {S A} (body : M S A) (handler : Error → M S A) : M S A :=
  λ s, match body s with
       | (Return a, s') => (Return a, s')
       | (Throw e, s') => handler e s'
       end.

(** [try { body } finally { fin }]: [fin] runs on every exit of [body];
    when [fin] itself throws, that error replaces the outcome of [body]. *)
Definition finally {S A} (body : M S A) (fin : M S unit) : M S A :=
  λ s, match body s with
       | (r, s') =>
           match fin s' with
           | (Return _, s'') => (r, s'')
           | (Throw e, s'') => (Throw e, s'')
           end
       end.

Definition gets {S A} (f : S → A) : M S A := λ s, (Return (f s), s).
Definition modify {S} (f : S → S) : M S unit := λ s, (Return tt, f s).

(** A computation on the second component of a pair of states. *)
Definition lift {L S A} (m : M S A) : M (L * S) A :=
  λ ls, match m ls.2 with (r, s') => (r, (ls.1, s')) end.

(** String conversion of a possibly [undefined] string, as in a template
    literal or a property key. *)
Definition str (v : option string) : string := default "undefined" v.

(** Truthiness of a possibly [undefined] string and number. *)
Definition truthy_string (v : option string) : bool :=
  match v with Some s => negb (String.eqb s "") | None => false end.

Definition truthy_number (v : option Z) : bool :=
  match v with Some n => negb (Z.eqb n 0) | None => false end.

End Js.
Export Js.

#[global] Instance M_ret {S} : MRet (M S) := λ A, ret.
#[global] Instance M_bind {S} : MBind (M S) := λ A B k m, bind m k.
#[global] Instance M_throw {S} : MThrow Error (M S) := λ A, throw.

(** ** The world outside the task *)

(** Calls that leave the process, as recorded in the trace. *)
Inductive Event : Type :=
| ConsoleLog (line : string)
| ConsoleError (e : Error)
| StdoutWrite (text : string)
| GetContractAt (name address : string)
| GetNamedAccounts
| GetSigner (address : option string)
| DeploymentsGet (name : string)
| SendTx (target : string) (signer : option string)
         (method : string) (args : list (option string))
| WaitTx (hash : string)
| CreateRandom
| Mkdir (path : string)
| OpenWx (path : string) (mode : Z)
| WriteFd (fd : nat) (data : string)
| CloseFd (fd : nat)
| ReadFile (path : string)
| RunSuper.

#[global] Instance Event_eq_dec : EqDecision Event.
Proof. solve_decision. Defined.

(** An entry of [hre.config.networks]: [url] is absent on the in-process
    network, [chainId] is optional everywhere. *)
Record NetworkConfig := mkNetwork {
  url : option string;
  chainId : option Z
}.

(** [NetworksConfig] of Hardhat: the entries [hardhat] and [localhost]
    always exist, the others are indexed by name. *)
Record NetworksConfig := mkNetworks {
  hardhat : NetworkConfig;
  localhost : NetworkConfig;
  named : gmap string NetworkConfig
}.

(** The profile the table itself holds under [key] (its own property of
    that name), if any. *)
Definition networks_get (n : NetworksConfig) (key : string)
  : option NetworkConfig :=
  if decide (key = "hardhat") then Some (hardhat n)
  else if decide (key = "localhost") then Some (localhost n)
  else named n !! key.

(** The table is a plain object: besides its own properties it answers to
    the names every object inherits from [Object.prototype]. *)
Definition object_prototype_keys : list string :=
  ["constructor"; "__defineGetter__"; "__defineSetter__"; "hasOwnProperty";
   "__lookupGetter__"; "__lookupSetter__"; "isPrototypeOf";
   "propertyIsEnumerable"; "toString"; "valueOf"; "__proto__";
   "toLocaleString"].

(** The value of [networks[key]]: a profile of the table, a value
    inherited from the prototype (a function, or the prototype itself), or
    [undefined]. *)
Inductive Property : Type :=
| Profile (p : NetworkConfig)
| Inherited (name : string)
| Undefined.

(** [networks[key]]: an own property shadows an inherited one. *)
Definition networks_index (n : NetworksConfig) (key : string) : Property :=
  match networks_get n key with
  | Some p => Profile p
  | None =>
      if bool_decide (key ∈ object_prototype_keys) then Inherited key
      else Undefined
  end.

(** [if (network)]: every object and function is truthy. *)
Definition truthy_property (v : Property) : bool :=
  match v with Undefined => false | _ => true end.

(** The value read through the cast to [HttpNetworkConfig]: an inherited
    value has neither [url] nor [chainId]. *)
Definition as_config (v : Property) : NetworkConfig :=
  match v with
  | Profile p => p
  | _ => mkNetwork None None
  end.

Record FileNode := mkFile { f_mode : Z; f_data : string }.

(** Failures the operating system may inject, besides those the model
    derives from the state of the file system ([EEXIST], [ENOENT],
    [EISDIR], [EBADF]); each is asked by path. *)
Record OsFaults := mkFaults {
  mkdir_fault : string → option Error;
  open_fault : string → option Error;
  write_fault : string → option Error;
  read_fault : string → option Error;
  close_fault : string → option Error
}.

Record World := mkWorld {
  files : gmap string FileNode;
  dirs : gset string;
  fds : gmap nat string;
  environ : gmap string string;
  networks : NetworksConfig;
  draws : nat;
  os : OsFaults;
  (** the file mode creation mask of the process *)
  umask : Z;
  trace : list Event
}.

Definition set_files (f : gmap string FileNode → gmap string FileNode)
  (w : World) : World :=
  mkWorld (f (files w)) (dirs w) (fds w) (environ w) (networks w)
          (draws w) (os w) (umask w) (trace w).
Definition set_dirs (f : gset string → gset string) (w : World) : World :=
  mkWorld (files w) (f (dirs w)) (fds w) (environ w) (networks w)
          (draws w) (os w) (umask w) (trace w).
Definition set_fds (f : gmap nat string → gmap nat string)
  (w : World) : World :=
  mkWorld (files w) (dirs w) (f (fds w)) (environ w) (networks w)
          (draws w) (os w) (umask w) (trace w).
Definition set_environ (f : gmap string string → gmap string string)
  (w : World) : World :=
  mkWorld (files w) (dirs w) (fds w) (f (environ w)) (networks w)
          (draws w) (os w) (umask w) (trace w).
Definition set_networks (f : NetworksConfig → NetworksConfig)
  (w : World) : World :=
  mkWorld (files w) (dirs w) (fds w) (environ w) (f (networks w))
          (draws w) (os w) (umask w) (trace w).
Definition set_draws (f : nat → nat) (w : World) : World :=
  mkWorld (files w) (dirs w) (fds w) (environ w) (networks w)
          (f (draws w)) (os w) (umask w) (trace w).
Definition set_trace (f : list Event → list Event) (w : World) : World :=
  mkWorld (files w) (dirs w) (fds w) (environ w) (networks w)
          (draws w) (os w) (umask w) (f (trace w)).

(** The world after the events [evs] have been appended to the trace. *)
Definition emits (evs : list Event) (w : World) : World :=
  set_trace (λ t, t ++ evs) w.

(** Record an event at the end of the trace. *)
Definition emit (e : Event) : M World unit :=
  modify (emits [e]).

Definition console_log (line : string) : M World unit :=
  emit (ConsoleLog line).
Definition console_error (e : Error) : M World unit :=
  emit (ConsoleError e).
Definition stdout_write (text : string) : M World unit :=
  emit (StdoutWrite text).

(** A call to a collaborator: recorded, then settled to its outcome. *)
Definition call {A} (e : Event) (o : outcome A) : M World A :=
  emit e ;; settle o.

(** ** Collaborators reached through [hre] *)

Record Tx := mkTx { hash : string; wait : outcome unit }.

(** A contract handle: the address and the signer it is connected to
    ([None]: the provider's default signer). *)
Record Contract := mkContract {
  address : string;
  signer : option string
}.

Record Deployment := mkDeployment { d_address : string }.

Record Wallet := mkWallet { w_address : string; privateKey : string }.

Record Hre := mkHre {
  network_name : string;
  getContractAt : string → string → outcome Contract;
  getNamedAccounts : outcome (gmap string string);
  getSigner : option string → outcome string;
  deployments_get : string → outcome Deployment;
  (** the outcome of submitting [method(args)] on a contract *)
  send : Contract → string → list (option string) → outcome Tx;
  (** the outcome of the [n]-th call of [Wallet.createRandom] *)
  createRandom : nat → outcome Wallet
}.

(** [contract.method(...args)] *)
Definition invoke (hre : Hre) (c : Contract) (method : string)
  (args : list (option string)) : M World Tx :=
  call (SendTx (address c) (signer c) method args) (send hre c method args).

(** [tx.wait()] *)
Definition tx_wait (tx : Tx) : M World unit :=
  call (WaitTx (hash tx)) (wait tx).

(** ** Tasks [panic], [unpause], [harvest] *)

Definition panic (hre : Hre) (strat : string) : M World unit :=
  strategy ← call (GetContractAt "IStrategy" strat)
                  (getContractAt hre "IStrategy" strat);
  try_catch
    (tx ← invoke hre strategy "panic" [];
     let url := "https://bscscan.com/tx/" +:+ hash tx in
     tx_wait tx;;
     console_log ("Successful panic with tx at " +:+ url))
    (λ err, console_log ("Couldn't panic due to " +:+ description err)).

Definition unpause (hre : Hre) (strat : string) : M World unit :=
  strategy ← call (GetContractAt "IStrategy" strat)
                  (getContractAt hre "IStrategy" strat);
  try_catch
    (tx ← invoke hre strategy "unpause" [];
     let url := "https://bscscan.com/tx/" +:+ hash tx in
     tx_wait tx;;
     console_log ("Successful unpaused with tx at " +:+ url))
    (λ err, console_log ("Couldn't unpause due to " +:+ description err)).

Definition harvest (hre : Hre) (strat : string) : M World unit :=
  strategy ← call (GetContractAt "IStrategy" strat)
                  (getContractAt hre "IStrategy" strat);
  try_catch
    (tx ← invoke hre strategy "harvest" [];
     let url := "https://bscscan.com/tx/" +:+ hash tx in
     tx_wait tx;;
     console_log ("Successful harvest with tx at " +:+ url))
    (λ err, console_log ("Couldn't harvest due to " +:+ description err)).

(** ** Task [transfer] *)

(** The double-quote character of the progress messages. *)
Definition dq : string := String (Ascii.ascii_of_nat 34) EmptyString.

(** The line feed that ends them. *)
Definition nl : string := String (Ascii.ascii_of_nat 10) EmptyString.

(** [Ownable__factory.connect(address, signer)] *)
Definition Ownable_connect (addr : string) (sg : string) : Contract :=
  mkContract addr (Some sg).

Definition transfer (hre : Hre) (vault : string) : M World unit :=
  accounts ← call GetNamedAccounts (getNamedAccounts hre);
  let deployer := accounts !! "deployer" in
  let vaultOwner := accounts !! "vaultOwner" in
  let stratOwner := accounts !! "stratOwner" in
  signer ← call (GetSigner deployer) (getSigner hre deployer);
  (let vaultName := vault +:+ "-vault" in
   vaultDeployment ← call (DeploymentsGet vaultName)
                          (deployments_get hre vaultName);
   let vContract := Ownable_connect (d_address vaultDeployment) signer in
   stdout_write ("Transfering ownership of " +:+ dq +:+ vaultName +:+ dq
                 +:+ " at " +:+ dq +:+ address vContract +:+ dq
                 +:+ " to " +:+ dq +:+ str vaultOwner +:+ dq);;
   tx ← invoke hre vContract "transferOwnership" [vaultOwner];
   stdout_write (" (tx: " +:+ hash tx +:+ ")" +:+ nl);;
   tx_wait tx);;
  (let stratName := vault +:+ "-strat" in
   stratDeployment ← call (DeploymentsGet stratName)
                          (deployments_get hre stratName);
   let sContract := Ownable_connect (d_address stratDeployment) signer in
   stdout_write ("Transfering ownership of " +:+ dq +:+ stratName +:+ dq
                 +:+ " at " +:+ dq +:+ address sContract +:+ dq
                 +:+ " to " +:+ dq +:+ str stratOwner +:+ dq);;
   tx ← invoke hre sContract "transferOwnership" [stratOwner];
   stdout_write (" (tx: " +:+ hash tx +:+ ")" +:+ nl);;
   tx_wait tx);;
  console_log "done".

(** ** Task [node] *)

(** The arguments of the [node] task: the three this override touches,
    and the rest by name. *)
Record NodeArgs := mkNodeArgs {
  fork : option string;
  noReset : bool;
  write : bool;
  others : gmap string string
}.

Definition set_chainId (c : option Z) (n : NetworkConfig) : NetworkConfig :=
  mkNetwork (url n) c.

Definition set_hardhat (f : NetworkConfig → NetworkConfig)
  (n : NetworksConfig) : NetworksConfig :=
  mkNetworks (f (hardhat n)) (localhost n) (named n).
Definition set_localhost (f : NetworkConfig → NetworkConfig)
  (n : NetworksConfig) : NetworksConfig :=
  mkNetworks (hardhat n) (f (localhost n)) (named n).

(** [network] is a reference into the table; the two assignments to
    [chainId] store the value read from it, so reading it again after the
    first assignment yields the same number even when [network] is the
    [hardhat] entry itself. *)
Definition node (taskArgs : NodeArgs) (runSuper : NodeArgs → M World unit)
  : M World unit :=
  nets ← gets networks;
  let found := networks_index nets (str (fork taskArgs)) in
  if truthy_property found then
      let network := as_config found in
      modify (set_environ (<["HARDHAT_DEPLOY_FORK" := str (fork taskArgs)]>));;
      let taskArgs1 :=
        mkNodeArgs (fork taskArgs) true (write taskArgs) (others taskArgs) in
      let taskArgs2 :=
        mkNodeArgs (fork taskArgs1) (noReset taskArgs1) false
                   (others taskArgs1) in
      let rpc := url network in
      console_log ("Forking " +:+ str (fork taskArgs2) +:+ " from RPC: "
                   +:+ str rpc);;
      let taskArgs3 :=
        mkNodeArgs rpc (noReset taskArgs2) (write taskArgs2)
                   (others taskArgs2) in
      (if truthy_number (chainId network) then
         modify (set_networks (set_hardhat (set_chainId (chainId network))));;
         modify (set_networks (set_localhost (set_chainId (chainId network))))
       else mret tt);;
      runSuper taskArgs3
  else runSuper taskArgs.

(** ** The [fs] module *)

Module Fs.

Definition EEXIST : Error :=
  mkError (Some "EEXIST") "Error: EEXIST: file already exists".
Definition ENOENT : Error :=
  mkError (Some "ENOENT") "Error: ENOENT: no such file or directory".
Definition EBADF : Error :=
  mkError (Some "EBADF") "Error: EBADF: bad file descriptor".
Definition EISDIR : Error :=
  mkError (Some "EISDIR") "Error: EISDIR: illegal operation on a directory".

(** The lowest descriptor number not in use, searched upwards from [n]
    for at most [fuel] occupied entries. *)
Fixpoint first_free (t : gmap nat string) (n fuel : nat) : nat :=
  match fuel with
  | O => n
  | S k => match t !! n with
           | None => n
           | Some _ => first_free t (S n) k
           end
  end.

Definition lowest_free (t : gmap nat string) : nat :=
  first_free t 0 (size t).

Definition exists_path (w : World) (path : string) : bool :=
  bool_decide (is_Some (files w !! path)) || bool_decide (path ∈ dirs w).

(** [fs.mkdirSync(path)]: as for [openSync], a failure the system
    injects is answered before the existence of [path] is. *)
Definition mkdirSync (path : string) : M World unit :=
  emit (Mkdir path);;
  w ← gets id;
  match mkdir_fault (os w) path with
  | Some e => mthrow e
  | None =>
      if exists_path w path then mthrow EEXIST
      else modify (set_dirs (λ d, {[path]} ∪ d))
  end.

(** [fs.openSync(path, 'wx+', mode)]: exclusive creation. A failure the
    system injects (no access to the directory, no descriptor left, no
    space) is answered before the existence of [path] is; otherwise an
    existing path is refused with [EEXIST]; otherwise the file is created,
    empty, with the mode [mode & ~umask]. *)
Definition openSync_wx (path : string) (mode : Z) : M World nat :=
  emit (OpenWx path mode);;
  w ← gets id;
  match open_fault (os w) path with
  | Some e => mthrow e
  | None =>
      if exists_path w path then mthrow EEXIST
      else
        let fd := lowest_free (fds w) in
        modify (set_files (<[path := mkFile (Z.ldiff mode (umask w)) ""]>));;
        modify (set_fds (<[fd := path]>));;
        mret fd
  end.

(** [fs.writeFileSync(fd, data)] on a descriptor positioned at the start
    of a file no longer than [data]. *)
Definition writeFileSync (fd : nat) (data : string) : M World unit :=
  emit (WriteFd fd data);;
  w ← gets id;
  match fds w !! fd with
  | None => mthrow EBADF
  | Some path =>
      match write_fault (os w) path with
      | Some e => mthrow e
      | None => modify (set_files (alter (λ f, mkFile (f_mode f) data) path))
      end
  end.

(** [fs.closeSync(fd)]. As with [close(2)] on Linux, the descriptor of
    an open file is released whether or not the call reports an error. *)
Definition closeSync (fd : nat) : M World unit :=
  emit (CloseFd fd);;
  w ← gets id;
  match fds w !! fd with
  | None => mthrow EBADF
  | Some path =>
      modify (set_fds (delete fd));;
      match close_fault (os w) path with
      | Some e => mthrow e
      | None => mret tt
      end
  end.

(** [fs.readFileSync(path).toString()]. A path that is a directory is
    refused with [EISDIR]; the system may refuse any other path, present or
    not, for a reason of its own ([EACCES], [ENOTDIR], [EIO]); a path that
    is simply not there is refused with [ENOENT]. *)
Definition readFileSync (path : string) : M World string :=
  emit (ReadFile path);;
  w ← gets id;
  match files w !! path with
  | Some f =>
      match read_fault (os w) path with
      | Some e => mthrow e
      | None => mret (f_data f)
      end
  | None =>
      if bool_decide (path ∈ dirs w) then mthrow EISDIR
      else match read_fault (os w) path with
           | Some e => mthrow e
           | None => mthrow ENOENT
           end
  end.

End Fs.

(** ** Task [generate_accounts] *)

Definition DEPLOYER_PK_FILE : string := ".config/DEPLOYER_PK".
Definition OTHER_PK_FILE : string := ".config/OTHER_PK".

(** The value of the local variable [file]: [undefined] until first
    assigned, a descriptor after [openSync], [null] after the [finally]
    block released it. *)
Inductive FileVar : Type :=
| FUndefined
| FNull
| FNum (fd : nat).

(** [if (file)]: a number is truthy unless it is zero. *)
Definition truthy_file (v : FileVar) : bool :=
  match v with
  | FNum fd => negb (Nat.eqb fd 0)
  | _ => false
  end.

(** The local variables [account] and [file] of the task body. *)
Record Locals := mkLocals {
  account : option Wallet;
  file : FileVar
}.

Definition assign_account (a : Wallet) : M (Locals * World) unit :=
  modify (λ s, (mkLocals (Some a) (file s.1), s.2)).
Definition assign_file (v : FileVar) : M (Locals * World) unit :=
  modify (λ s, (mkLocals (account s.1) v, s.2)).

(** [hre.ethers.Wallet.createRandom()] *)
Definition Wallet_createRandom (hre : Hre) : M World Wallet :=
  n ← gets draws;
  modify (set_draws S);;
  call CreateRandom (createRandom hre n).

(** The [finally] block of both key steps. *)
Definition release_file : M (Locals * World) unit :=
  f ← gets (λ s, file s.1);
  if truthy_file f then
    match f with
    | FNum fd => lift (Fs.closeSync fd);; assign_file FNull
    | _ => mret tt
    end
  else mret tt.

Definition generate_accounts_body (hre : Hre) : M (Locals * World) unit :=
  try_catch (lift (Fs.mkdirSync ".config")) (λ e, mret tt);;
  finally
    (try_catch
       (fd ← lift (Fs.openSync_wx DEPLOYER_PK_FILE 384);
        assign_file (FNum fd);;
        acc ← lift (Wallet_createRandom hre);
        assign_account acc;;
        lift (Fs.writeFileSync fd (privateKey acc));;
        lift (console_log ("Deployer account: " +:+ w_address acc)))
       (λ e, if decide (code e = Some "EEXIST")
             then lift (console_log "Deployer key exists. Not overwriting")
             else lift (console_error e)))
    release_file;;
  finally
    (try_catch
       (fd ← lift (Fs.openSync_wx OTHER_PK_FILE 384);
        assign_file (FNum fd);;
        acc ← lift (Wallet_createRandom hre);
        assign_account acc;;
        lift (Fs.writeFileSync fd (privateKey acc));;
        lift (console_log ("Other account  : " +:+ w_address acc)))
       (λ e, if decide (code e = Some "EEXIST")
             then lift (console_log "Other key exists. Not overwriting")
             else lift (console_error e)))
    release_file.

(** The task: its body run on fresh locals. *)
Definition generate_accounts (hre : Hre) : M World unit :=
  λ w, match generate_accounts_body hre (mkLocals None FUndefined, w) with
       | (r, (_, w')) => (r, w')
       end.

(** The two key steps of the body are one statement, up to the path of
    the key file and the two phrases: the [try]/[catch]/[finally] for the
    key file [path], reporting with [created] and [present]. *)
Definition key_step (hre : Hre) (path created present : string)
  : M (Locals * World) unit :=
  finally
    (try_catch
       (fd ← lift (Fs.openSync_wx path 384);
        assign_file (FNum fd);;
        acc ← lift (Wallet_createRandom hre);
        assign_account acc;;
        lift (Fs.writeFileSync fd (privateKey acc));;
        lift (console_log (created +:+ w_address acc)))
       (λ e, if decide (code e = Some "EEXIST")
             then lift (console_log present)
             else lift (console_error e)))
    release_file.

(** The creation of the configuration directory, errors discarded. *)
Definition config_dir_step : M (Locals * World) unit :=
  try_catch (lift (Fs.mkdirSync ".config")) (λ e, mret tt).

(** ** Loading [deployerAccount] when the configuration module is read *)

Definition deployerAccount : M World (option (list string)) :=
  pk ← gets (λ w, environ w !! "DEPLOYER_PK");
  if truthy_string pk then mret (Some [str pk])
  else
    try_catch
      (data ← Fs.readFileSync DEPLOYER_PK_FILE;
       mret (Some [data]))
      (λ e, if decide (code e = Some "ENOENT")
            then console_log "Deployer account not found. Create .config/DEPLOYER_PK or run `hardhat generate_accounts`.";;
                 mret None
            else console_error e;; mret None).

(** The part of the network table declared in the file that the [node]
    task reads: endpoint and chain identifier of each profile. The
    [hardhat] entry carries Hardhat's default chain identifier. *)
Definition config_networks : NetworksConfig :=
  mkNetworks
    (mkNetwork None (Some 31337))
    (mkNetwork (Some "http://127.0.0.1:8545") None)
    (list_to_map
       [("bsc", mkNetwork (Some "https://bsc-dataseed.binance.org/") (Some 56));
        ("heco", mkNetwork (Some "https://http-mainnet.hecochain.com") (Some 128));
        ("avax", mkNetwork (Some "https://api.avax.network/ext/bc/C/rpc") (Some 43114));
        ("polygon", mkNetwork (Some "https://speedy-nodes-nyc.moralis.io/64b5b48009c1b462c3173a1c/polygon/mainnet") (Some 137));
        ("fantom", mkNetwork (Some "https://rpc.ftm.tools") (Some 250));
        ("testnet", mkNetwork (Some "https://data-seed-prebsc-1-s1.binance.org:8545/") (Some 97))]).

(** * Vocabulary of the properties *)

(** A console line that announces success. *)
Definition is_success_report (e : Event) : bool :=
  match e with
  | ConsoleLog line => String.prefix "Successful" line
  | _ => false
  end.

(** What is required of an executor task that submits [method] and reports
    with the phrases [ok] and [fail]. The events [evs] are those the run
    appends to the trace, in order. *)
Definition executor_spec (task : Hre → string → M World unit)
  (method ok fail : string) : Prop :=
  ∀ hre strat w, ∃ evs r,
    task hre strat w = (r, emits evs w) ∧
    (∀ e, e ∈ evs → is_success_report e = true →
       ∃ c tx,
         getContractAt hre "IStrategy" strat = Return c ∧
         send hre c method [] = Return tx ∧
         wait tx = Return tt ∧
         evs = [GetContractAt "IStrategy" strat;
                SendTx (address c) (signer c) method [];
                WaitTx (hash tx);
                e]) ∧
    (∀ c tx,
       getContractAt hre "IStrategy" strat = Return c →
       send hre c method [] = Return tx →
       wait tx = Return tt →
       r = Return tt ∧
       evs = [GetContractAt "IStrategy" strat;
              SendTx (address c) (signer c) method [];
              WaitTx (hash tx);
              ConsoleLog (ok +:+ "https://bscscan.com/tx/" +:+ hash tx)]) ∧
    (∀ c err,
       getContractAt hre "IStrategy" strat = Return c →
       send hre c method [] = Throw err →
       r = Return tt ∧
       evs = [GetContractAt "IStrategy" strat;
              SendTx (address c) (signer c) method [];
              ConsoleLog (fail +:+ description err)]) ∧
    (∀ c tx err,
       getContractAt hre "IStrategy" strat = Return c →
       send hre c method [] = Return tx →
       wait tx = Throw err →
       r = Return tt ∧
       evs = [GetContractAt "IStrategy" strat;
              SendTx (address c) (signer c) method [];
              WaitTx (hash tx);
              ConsoleLog (fail +:+ description err)]).

(** The same collaborators on another active network. *)
Definition with_network (net : string) (hre : Hre) : Hre :=
  mkHre net (getContractAt hre) (getNamedAccounts hre) (getSigner hre)
        (deployments_get hre) (send hre) (createRandom hre).

(** The success line of an executor task for a transaction hash. *)
Definition success_line (phrase h : string) : Event :=
  ConsoleLog (phrase +:+ "https://bscscan.com/tx/" +:+ h).

(** The vault step went through: named accounts and signer were obtained,
    the vault name resolved, the transfer was submitted and confirmed. *)
Definition vault_step_succeeds (hre : Hre) (vault : string) : Prop :=
  ∃ accounts sg d tx,
    getNamedAccounts hre = Return accounts ∧
    getSigner hre (accounts !! "deployer") = Return sg ∧
    deployments_get hre (vault +:+ "-vault") = Return d ∧
    send hre (Ownable_connect (d_address d) sg) "transferOwnership"
         [accounts !! "vaultOwner"] = Return tx ∧
    wait tx = Return tt.

(** The events of a vault step that went through. *)
Definition vault_events (vault : string) (accounts : gmap string string)
  (sg : string) (d : Deployment) (tx : Tx) : list Event :=
  [GetNamedAccounts;
   GetSigner (accounts !! "deployer");
   DeploymentsGet (vault +:+ "-vault");
   StdoutWrite ("Transfering ownership of " +:+ dq +:+ (vault +:+ "-vault")
                +:+ dq +:+ " at " +:+ dq +:+ d_address d +:+ dq
                +:+ " to " +:+ dq +:+ str (accounts !! "vaultOwner") +:+ dq);
   SendTx (d_address d) (Some sg) "transferOwnership"
          [accounts !! "vaultOwner"];
   StdoutWrite (" (tx: " +:+ hash tx +:+ ")" +:+ nl);
   WaitTx (hash tx)].

(** The events of a strategy step that went through. *)
Definition strat_events (vault : string) (accounts : gmap string string)
  (sg : string) (d : Deployment) (tx : Tx) : list Event :=
  [DeploymentsGet (vault +:+ "-strat");
   StdoutWrite ("Transfering ownership of " +:+ dq +:+ (vault +:+ "-strat")
                +:+ dq +:+ " at " +:+ dq +:+ d_address d +:+ dq
                +:+ " to " +:+ dq +:+ str (accounts !! "stratOwner") +:+ dq);
   SendTx (d_address d) (Some sg) "transferOwnership"
          [accounts !! "stratOwner"];
   StdoutWrite (" (tx: " +:+ hash tx +:+ ")" +:+ nl);
   WaitTx (hash tx)].

(** The names resolved and the transactions submitted in a list of
    events, in order. *)
Definition resolved_names (evs : list Event) : list string :=
  omap (λ e, match e with DeploymentsGet n => Some n | _ => None end) evs.

Definition submissions (evs : list Event)
  : list (string * option string * string * list (option string)) :=
  omap (λ e, match e with
             | SendTx t s m a => Some (t, s, m, a)
             | _ => None
             end) evs.

(** The first failure among the collaborator calls of [transfer], in
    program order. *)
Definition first_failure (hre : Hre) (vault : string) : option Error :=
  match getNamedAccounts hre with
  | Throw e => Some e
  | Return accounts =>
  match getSigner hre (accounts !! "deployer") with
  | Throw e => Some e
  | Return sg =>
  match deployments_get hre (vault +:+ "-vault") with
  | Throw e => Some e
  | Return dv =>
  match send hre (Ownable_connect (d_address dv) sg) "transferOwnership"
             [accounts !! "vaultOwner"] with
  | Throw e => Some e
  | Return txv =>
  match wait txv with
  | Throw e => Some e
  | Return _ =>
  match deployments_get hre (vault +:+ "-strat") with
  | Throw e => Some e
  | Return ds =>
  match send hre (Ownable_connect (d_address ds) sg) "transferOwnership"
             [accounts !! "stratOwner"] with
  | Throw e => Some e
  | Return txs =>
  match wait txs with
  | Throw e => Some e
  | Return _ => None
  end end end end end end end end.

(** After the strategy contract is resolved, an executor task returns
    normally and its last event is a console line. *)
Definition ends_in_report (task : Hre → string → M World unit)
  (hre : Hre) (strat : string) (w : World) : Prop :=
  ∃ evs line, task hre strat w = (Return tt, emits (evs ++ [ConsoleLog line]) w).

(** A failure to resolve the strategy contract leaves the task. *)
Definition resolution_escapes (task : Hre → string → M World unit)
  (hre : Hre) (strat : string) (w : World) (e : Error) : Prop :=
  task hre strat w = (Throw e, emits [GetContractAt "IStrategy" strat] w).

(** The world in which [runSuper] starts when [node] forks from the
    profile [p] found under [key]. *)
Definition forked_world (key : string) (p : NetworkConfig) (w : World)
  : World :=
  let w1 := set_environ (<["HARDHAT_DEPLOY_FORK" := key]>) w in
  let w2 := emits [ConsoleLog ("Forking " +:+ key +:+ " from RPC: "
                               +:+ str (url p))] w1 in
  if truthy_number (chainId p)
  then set_networks (λ n, set_localhost (set_chainId (chainId p))
                            (set_hardhat (set_chainId (chainId p)) n)) w2
  else w2.

(** The table of the file with one more profile, a local chain whose
    chain identifier is declared as 0. *)
Definition networks_with_zero : NetworksConfig :=
  mkNetworks (hardhat config_networks) (localhost config_networks)
    (<["devchain" := mkNetwork (Some "http://127.0.0.1:7545") (Some 0)]>
       (named config_networks)).

(** ** Concrete collaborators and worlds *)

Module Scenario.

Definition quiet : OsFaults :=
  mkFaults (λ _, None) (λ _, None) (λ _, None) (λ _, None) (λ _, None).

(** The three standard descriptors of a process. *)
Definition stdio : gmap nat string :=
  list_to_map [(0%nat, "/dev/stdin"); (1%nat, "/dev/stdout");
               (2%nat, "/dev/stderr")].

(** A process with its standard descriptors open, the usual mask 022
    (18) and nothing on disk. *)
Definition fresh_checkout : World :=
  mkWorld ∅ ∅ stdio ∅ config_networks 0 quiet 18 [].

Definition named_accounts : gmap string string :=
  list_to_map [("deployer", "0xD0"); ("user", "0xE1"); ("keeper", "0xC2");
               ("vaultOwner", "0xA3"); ("stratOwner", "0xB4")].

Definition no_deployment : Error :=
  mkError None "Error: No deployment found for: foo-vault".

Definition reverted : Error :=
  mkError (Some "CALL_EXCEPTION") "Error: transaction failed: !manager".

(** Everything succeeds: a deployment [name] lives at [@name], the
    transaction sent to a contract has the hash [tx:<address>]. *)
Definition hre_ok : Hre :=
  mkHre "bsc"
    (λ _ addr, Return (mkContract addr None))
    (Return named_accounts)
    (λ a, Return (str a))
    (λ name, Return (mkDeployment ("@" +:+ name)))
    (λ c _ _, Return (mkTx ("tx:" +:+ address c) (Return tt)))
    (λ n, Return (match n with
                  | O => mkWallet "0xF0" "key-0"
                  | _ => mkWallet "0xF1" "key-1"
                  end)).

(** The registry knows no deployment. *)
Definition hre_unresolved : Hre :=
  mkHre "bsc" (getContractAt hre_ok) (getNamedAccounts hre_ok)
    (getSigner hre_ok) (λ _, Throw no_deployment) (send hre_ok)
    (createRandom hre_ok).

(** Every submission reverts. *)
Definition hre_reverting : Hre :=
  mkHre "bsc" (getContractAt hre_ok) (getNamedAccounts hre_ok)
    (getSigner hre_ok) (deployments_get hre_ok) (λ _ _ _, Throw reverted)
    (createRandom hre_ok).

(** The strategy address is not a contract of the expected interface. *)
Definition hre_no_contract : Hre :=
  mkHre "bsc" (λ _ _, Throw no_deployment) (getNamedAccounts hre_ok)
    (getSigner hre_ok) (deployments_get hre_ok) (send hre_ok)
    (createRandom hre_ok).




End Scenario.

(** * Summaries of the steps of [generate_accounts] *)

(** What a key step reports for a caught error. *)
Definition report (present : string) (e : Error) : Event :=
  if decide (code e = Some "EEXIST") then ConsoleLog present
  else ConsoleError e.

(** The [finally] block closes the descriptor unless it is 0, which
    [if (file)] takes for no descriptor. *)
Definition closing (fd : nat) : list Event :=
  if Nat.eqb fd 0 then [] else [CloseFd fd].

Definition kept_open (fd : nat) (path : string) (t : gmap nat string)
  : gmap nat string :=
  if Nat.eqb fd 0 then <[fd := path]> t else t.

(** The world, trace apart, after [path] was created as descriptor [fd],
    a wallet was asked for, and the file was left holding [data]. *)
Definition key_created (fd : nat) (path data : string) (w : World) : World :=
  set_fds (kept_open fd path)
    (set_draws S
       (set_files (<[path := mkFile (Z.ldiff 384 (umask w)) data]>) w)).

(** The events of a key step started in [w]. *)
Definition key_events (hre : Hre) (path created present : string)
  (w : World) : list Event :=
  match open_fault (os w) path with
  | Some e => [OpenWx path 384; report present e]
  | None =>
      if Fs.exists_path w path then [OpenWx path 384; ConsoleLog present]
      else
        let fd := Fs.lowest_free (fds w) in
        match createRandom hre (draws w) with
        | Throw e =>
            [OpenWx path 384; CreateRandom; report present e] ++ closing fd
        | Return acc =>
            match write_fault (os w) path with
            | Some e =>
                [OpenWx path 384; CreateRandom; WriteFd fd (privateKey acc);
                 report present e] ++ closing fd
            | None =>
                [OpenWx path 384; CreateRandom; WriteFd fd (privateKey acc);
                 ConsoleLog (created +:+ w_address acc)] ++ closing fd
            end
        end
  end.

(** The world, trace apart, after a key step started in [w]. *)
Definition key_state (hre : Hre) (path : string) (w : World) : World :=
  match open_fault (os w) path with
  | Some e => w
  | None =>
      if Fs.exists_path w path then w
      else
        let fd := Fs.lowest_free (fds w) in
        match createRandom hre (draws w) with
        | Throw e => key_created fd path "" w
        | Return acc =>
            match write_fault (os w) path with
            | Some e => key_created fd path "" w
            | None => key_created fd path (privateKey acc) w
            end
        end
  end.

(** The result of a key step started in [w]: the step ends the task only
    when the file was created and closing it fails. *)
Definition key_result (path : string) (w : World) : outcome unit :=
  match open_fault (os w) path with
  | Some e => Return tt
  | None =>
      if Fs.exists_path w path then Return tt
      else if Nat.eqb (Fs.lowest_free (fds w)) 0 then Return tt
      else match close_fault (os w) path with
           | Some e => Throw e
           | None => Return tt
           end
  end.

Definition key_after (hre : Hre) (path created present : string)
  (w : World) : World :=
  emits (key_events hre path created present w) (key_state hre path w).

(** The world after the attempt to create [.config]. *)
Definition dir_after (w : World) : World :=
  match mkdir_fault (os w) ".config" with
  | Some e => emits [Mkdir ".config"] w
  | None =>
      if Fs.exists_path w ".config" then emits [Mkdir ".config"] w
      else set_dirs (λ d, {[".config"]} ∪ d) (emits [Mkdir ".config"] w)
  end.

(** The world after the deployer key step. *)
Definition deployer_after (hre : Hre) (w : World) : World :=
  key_after hre DEPLOYER_PK_FILE "Deployer account: "
            "Deployer key exists. Not overwriting" (dir_after w).

(** The result of the task: the other key step is reached only when the
    deployer key step returned. *)
Definition generate_result (hre : Hre) (w : World) : outcome unit :=
  match key_result DEPLOYER_PK_FILE (dir_after w) with
  | Throw e => Throw e
  | Return _ => key_result OTHER_PK_FILE (deployer_after hre w)
  end.

(** The world after the task. *)
Definition generate_after (hre : Hre) (w : World) : World :=
  match key_result DEPLOYER_PK_FILE (dir_after w) with
  | Throw e => deployer_after hre w
  | Return _ =>
      key_after hre OTHER_PK_FILE "Other account  : "
                "Other key exists. Not overwriting" (deployer_after hre w)
  end.

(** The events a run of the task appends after the attempt to create the
    directory, step by step. *)
Definition generate_events (hre : Hre) (w : World) : list Event :=
  key_events hre DEPLOYER_PK_FILE "Deployer account: "
             "Deployer key exists. Not overwriting" (dir_after w)
  ++ match key_result DEPLOYER_PK_FILE (dir_after w) with
     | Throw e => []
     | Return _ =>
         key_events hre OTHER_PK_FILE "Other account  : "
                    "Other key exists. Not overwriting" (deployer_after hre w)
     end.

(** The console lines in a list of events. *)
Definition console_lines (evs : list Event) : list string :=
  omap (λ e, match e with ConsoleLog l => Some l | _ => None end) evs.

(** ** The [accounts] entry of the profiles of the file *)

(** The value of [accounts] in a network profile. *)
Inductive Accounts : Type :=
| AccountsDefault
| AccountsRemote
| AccountsKeys (keys : option (list string)).

(** [config.networks[name].accounts], for the value [loaded] of
    [deployerAccount]; [None] for a name the file does not declare. *)
Definition config_accounts (loaded : option (list string)) (name : string)
  : option Accounts :=
  if decide (name = "hardhat") then Some AccountsDefault
  else if decide (name = "bsc") then Some (AccountsKeys loaded)
  else if decide (name = "heco") then Some (AccountsKeys loaded)
  else if decide (name = "avax") then Some (AccountsKeys loaded)
  else if decide (name = "polygon") then Some (AccountsKeys loaded)
  else if decide (name = "fantom") then Some (AccountsKeys loaded)
  else if decide (name = "localhost") then Some AccountsRemote
  else if decide (name = "testnet") then Some (AccountsKeys loaded)
  else None.

(** ** Counting what a run did *)

(** The hashes of the transactions waited for in a list of events. *)
Definition waits (evs : list Event) : list string :=
  omap (λ e, match e with WaitTx h => Some h | _ => None end) evs.

(** The paths of the exclusive creations attempted in a list of events. *)
Definition opens (evs : list Event) : list string :=
  omap (λ e, match e with OpenWx p _ => Some p | _ => None end) evs.

(** An executor task is single-shot: a run submits at most one
    transaction, the [method] of the task on the contract that was
    resolved, waits at most once, for that transaction, and prints at most
    one line. *)
Definition single_shot (task : Hre → string → M World unit)
  (method : string) : Prop :=
  ∀ hre strat w, ∃ evs r,
    task hre strat w = (r, emits evs w) ∧
    (submissions evs = [] ∨
     ∃ c, getContractAt hre "IStrategy" strat = Return c ∧
          submissions evs = [(address c, signer c, method, [])]) ∧
    (waits evs = [] ∨
     ∃ c tx, getContractAt hre "IStrategy" strat = Return c ∧
             send hre c method [] = Return tx ∧
             waits evs = [hash tx]) ∧
    (length (console_lines evs) ≤ 1)%nat.

(** ** More concrete worlds *)

Module Fixture.


Definition io_error : Error :=
  mkError (Some "EIO") "Error: EIO: i/o error, read".


(** A checkout with a readme and both keys in place. *)
Definition with_keys : World :=
  mkWorld (list_to_map [("README.md", mkFile 420 "# beefy");
                        (DEPLOYER_PK_FILE, mkFile 384 "key-a");
                        (OTHER_PK_FILE, mkFile 384 "key-b")])
          {[".config"]} Scenario.stdio ∅ config_networks 0
          Scenario.quiet 18 [].

(** A checkout whose deployer key cannot be read. *)
Definition unreadable_key : World :=
  mkWorld {[DEPLOYER_PK_FILE := mkFile 384 "key-a"]} {[".config"]}
          Scenario.stdio ∅ config_networks 0
          (mkFaults (λ _, None) (λ _, None) (λ _, None)
                    (λ _, Some io_error) (λ _, None)) 18 [].

(** The strategy contract cannot be resolved: the name of the vault
    resolves, that of the strategy does not. *)
Definition hre_no_strat : Hre :=
  mkHre "bsc" (getContractAt Scenario.hre_ok)
    (getNamedAccounts Scenario.hre_ok) (getSigner Scenario.hre_ok)
    (λ name, if decide (name = "foo-vault")
             then Return (mkDeployment "@foo-vault")
             else Throw Scenario.no_deployment)
    (send Scenario.hre_ok) (createRandom Scenario.hre_ok).

End Fixture.

(** * Properties *)

(** ** Reasoning about runs *)

Lemma emits_emits a b w : emits b (emits a w) = emits (a ++ b) w.
Proof. unfold emits, set_trace; simpl. by rewrite app_assoc. Qed.

Lemma emits_nil w : emits [] w = w.
Proof. destruct w; unfold emits, set_trace; simpl. by rewrite app_nil_r. Qed.

Lemma trace_emits evs w : trace (emits evs w) = trace w ++ evs.
Proof. reflexivity. Qed.

#[global] Arguments emits : simpl never.

(** Unfold the monadic operations of a run and compute. *)
Ltac run :=
  unfold call, invoke, tx_wait, console_log, console_error, stdout_write,
    emit, settle, try_catch, finally, modify, gets, lift,
    mbind, mret, mthrow, M_bind, M_ret, M_throw, bind, ret, throw in *;
  simpl in *.

(** Close a goal that equates two results whose worlds differ in how the
    appended events are grouped. *)
Ltac same_world :=
  repeat rewrite emits_emits; simpl; reflexivity.

(** ** The operation executor: [panic], [unpause], [harvest] *)

Ltac executor_cases hre strat :=
  destruct (getContractAt hre "IStrategy" strat) as [c|e0] eqn:Hc; simpl;
  [ match goal with
    | |- context [send hre c ?m []] =>
        destruct (send hre c m []) as [tx|e1] eqn:Hs; simpl;
        [ destruct (wait tx) as [[]|e2] eqn:Hw; simpl | ]
    end
  | ].

Ltac in_events :=
  repeat match goal with
    | H : _ ∈ [] |- _ => by apply elem_of_nil in H
    | H : _ ∈ _ :: _ |- _ =>
        let E := fresh "E" in
        apply elem_of_cons in H; destruct H as [E|H];
        [try discriminate E; try (injection E as E); try subst|]
    end.

Ltac executor_proof task :=
  intros hre strat w; unfold task; run; executor_cases hre strat;
  eexists _, _;
  (split; [same_world|]);
  (split; [intros e He Hr; in_events; try discriminate Hr;
           eexists _, _; repeat split; eauto; congruence|]);
  (split; [|split]); intros; split; congruence.

Lemma panic_executor :
  executor_spec panic "panic" "Successful panic with tx at "
                "Couldn't panic due to ".
Proof. executor_proof panic. Qed.

Lemma unpause_executor :
  executor_spec unpause "unpause" "Successful unpaused with tx at "
                "Couldn't unpause due to ".
Proof. executor_proof unpause. Qed.

Lemma harvest_executor :
  executor_spec harvest "harvest" "Successful harvest with tx at "
                "Couldn't harvest due to ".
Proof. executor_proof harvest. Qed.

(** C4. The operation executor ([panic], [unpause], [harvest]) reports
    success only when the submission returned a transaction and only after
    the wait for its confirmation completed: a success line in the events
    of a run forces the events to be resolution, submission, wait, report,
    in this order, with a returned transaction and a completed wait. When
    the submission or the confirmation fails, the task returns normally and
    its last event is the failure line carrying the description of the
    error; when both succeed, its last event is the success line. *)
Theorem C4_executor_reports :
  executor_spec panic "panic" "Successful panic with tx at "
                "Couldn't panic due to " ∧
  executor_spec unpause "unpause" "Successful unpaused with tx at "
                "Couldn't unpause due to " ∧
  executor_spec harvest "harvest" "Successful harvest with tx at "
                "Couldn't harvest due to ".
Proof.
  split; [exact panic_executor|].
  split; [exact unpause_executor | exact harvest_executor].
Qed.

(** ** The explorer reference does not depend on the network *)

(** C10. On every network, the success report of [panic], [unpause] and
    [harvest] is the phrase followed by the BscScan address of the
    transaction, [https://bscscan.com/tx/<hash>]; running the task with the
    same collaborators on another active network gives the same run. *)
Theorem C10_success_report_bscscan (hre : Hre) (strat : string) (w : World) :
  (∀ net,
     panic (with_network net hre) strat w = panic hre strat w ∧
     unpause (with_network net hre) strat w = unpause hre strat w ∧
     harvest (with_network net hre) strat w = harvest hre strat w) ∧
  (∀ c tx,
     getContractAt hre "IStrategy" strat = Return c →
     wait tx = Return tt →
     (send hre c "panic" [] = Return tx →
      panic hre strat w =
        (Return tt,
         emits [GetContractAt "IStrategy" strat;
                SendTx (address c) (signer c) "panic" [];
                WaitTx (hash tx);
                success_line "Successful panic with tx at " (hash tx)] w)) ∧
     (send hre c "unpause" [] = Return tx →
      unpause hre strat w =
        (Return tt,
         emits [GetContractAt "IStrategy" strat;
                SendTx (address c) (signer c) "unpause" [];
                WaitTx (hash tx);
                success_line "Successful unpaused with tx at " (hash tx)] w)) ∧
     (send hre c "harvest" [] = Return tx →
      harvest hre strat w =
        (Return tt,
         emits [GetContractAt "IStrategy" strat;
                SendTx (address c) (signer c) "harvest" [];
                WaitTx (hash tx);
                success_line "Successful harvest with tx at " (hash tx)] w))).
Proof.
  split.
  - intros net. repeat split; reflexivity.
  - intros c tx Hc Hw. unfold success_line.
    repeat split; intros Hs;
      [unfold panic | unfold unpause | unfold harvest];
      run; rewrite Hc; simpl; rewrite Hs; simpl; rewrite Hw; simpl;
      same_world.
Qed.

(** A run of [panic] on Polygon: the report still points to BscScan. *)
Example panic_on_polygon :
  let hre :=
    mkHre "polygon"
      (λ _ a, Return (mkContract a None))
      (Return ∅) (λ _, Return "0xd")
      (λ _, Throw (mkError None "no deployment"))
      (λ _ _ _, Return (mkTx "0xabc" (Return tt)))
      (λ _, Throw (mkError None "no entropy")) in
  let w := mkWorld ∅ ∅ ∅ ∅ config_networks 0
             Scenario.quiet 18 [] in
  trace (panic hre "0x51" w).2 =
    [GetContractAt "IStrategy" "0x51";
     SendTx "0x51" None "panic" [];
     WaitTx "0xabc";
     ConsoleLog "Successful panic with tx at https://bscscan.com/tx/0xabc"].
Proof. reflexivity. Qed.

(** ** The ownership transfer *)

Lemma vault_strat_names_differ (v : string) :
  v +:+ "-vault" ≠ v +:+ "-strat".
Proof. intros H. apply (inj (String.app v)) in H. discriminate H. Qed.

(** Split on the outcome of each collaborator call of a run, in order. *)
Ltac outcomes :=
  repeat match goal with
    | |- context [match ?o with Return _ => _ | Throw _ => _ end] =>
        match type of o with
        | outcome _ => let H := fresh "Ho" in destruct o eqn:H; simpl
        end
    end.

(** C1, as the task behaves. The strategy step of [transfer] is attempted
    exactly when the vault step went through (accounts, signer, resolution,
    submission and confirmation all succeeded), and then it starts right
    after the events of the vault step. When the vault step fails, the
    error leaves the task and the name of the strategy is never resolved. *)
Theorem C1_strategy_step_iff_vault_step (hre : Hre) (vault : string)
  (w : World) :
  ∃ evs r,
    transfer hre vault w = (r, emits evs w) ∧
    (DeploymentsGet (vault +:+ "-strat") ∈ evs ↔
       vault_step_succeeds hre vault) ∧
    (vault_step_succeeds hre vault →
       ∃ accounts sg d tx rest,
         evs = vault_events vault accounts sg d tx
               ++ DeploymentsGet (vault +:+ "-strat") :: rest) ∧
    (¬ vault_step_succeeds hre vault → ∃ e, r = Throw e).
Proof.
  pose proof (vault_strat_names_differ vault) as Hne.
  unfold transfer. run. outcomes.
  all: repeat match goal with u : () |- _ => destruct u end.
  all: eexists _, _; (split; [same_world|]).
  all: unfold vault_step_succeeds; split; [split|split].
  all: try (intros He; in_events; congruence).
  all: try (intros (?&?&?&?&?&?&?&?&?); simplify_eq; fail).
  all: try (intros _; set_solver).
  all: try (intros _; eexists _, _, _, _; repeat split; eauto; fail).
  all: try (intros _; eexists _, _, _, _, _; unfold vault_events; simpl;
            reflexivity).
  all: try (intros H; exfalso; apply H;
            eexists _, _, _, _; repeat split; eauto; fail).
  all: try (intros; eauto; fail).
  all: try (intros (?&?&?&?&?&?&?&?&?); congruence).
Qed.

(** C8. When the collaborators succeed (accounts [accounts], signer [sg]
    for the deployer, deployments [dv] and [ds], transactions [txv] and
    [txs], both confirmed), [transfer vault] returns normally after the
    events of the vault step, those of the strategy step and the line
    [done]: it resolves the names [vault-vault] and [vault-strat] and no
    other, submits one [transferOwnership] for each, signed by the
    deployer's signer, to the vault owner and to the strategy owner, and
    writes the hash of each transaction before [done]. *)
Theorem C8_transfer_scenario (hre : Hre) (vault : string) (w : World)
  (accounts : gmap string string) (sg : string)
  (dv ds : Deployment) (txv txs : Tx) :
  getNamedAccounts hre = Return accounts →
  getSigner hre (accounts !! "deployer") = Return sg →
  deployments_get hre (vault +:+ "-vault") = Return dv →
  send hre (Ownable_connect (d_address dv) sg) "transferOwnership"
       [accounts !! "vaultOwner"] = Return txv →
  wait txv = Return tt →
  deployments_get hre (vault +:+ "-strat") = Return ds →
  send hre (Ownable_connect (d_address ds) sg) "transferOwnership"
       [accounts !! "stratOwner"] = Return txs →
  wait txs = Return tt →
  let evs := vault_events vault accounts sg dv txv
             ++ strat_events vault accounts sg ds txs
             ++ [ConsoleLog "done"] in
  transfer hre vault w = (Return tt, emits evs w) ∧
  resolved_names evs = [vault +:+ "-vault"; vault +:+ "-strat"] ∧
  submissions evs =
    [(d_address dv, Some sg, "transferOwnership", [accounts !! "vaultOwner"]);
     (d_address ds, Some sg, "transferOwnership", [accounts !! "stratOwner"])] ∧
  (∃ pre mid,
     evs = pre ++ StdoutWrite (" (tx: " +:+ hash txv +:+ ")" +:+ nl)
           :: mid ++ [StdoutWrite (" (tx: " +:+ hash txs +:+ ")" +:+ nl);
                      WaitTx (hash txs); ConsoleLog "done"]).
Proof.
  intros Ha Hg Hdv Hsv Hwv Hds Hss Hws evs. subst evs.
  split; [|split; [reflexivity|split; [reflexivity|]]].
  - unfold transfer. run.
    rewrite Ha; simpl. rewrite Hg; simpl. rewrite Hdv; simpl.
    rewrite Hsv; simpl. rewrite Hwv; simpl. rewrite Hds; simpl.
    rewrite Hss; simpl. rewrite Hws; simpl. same_world.
  - eexists (take 5 (vault_events vault accounts sg dv txv)), _.
    simpl. repeat f_equal.
    instantiate (1 := [_; _; _; _]). reflexivity.
Qed.

(** [transfer] has no handler: its result is its first failure. *)
Lemma transfer_result (hre : Hre) (vault : string) (w : World) :
  (transfer hre vault w).1 =
    match first_failure hre vault with
    | Some e => Throw e
    | None => Return tt
    end.
Proof.
  unfold transfer, first_failure. run. outcomes; try reflexivity.
  all: repeat match goal with u : () |- _ => destruct u end; reflexivity.
Qed.

(** Nothing but events is left behind by [transfer], and no console line
    reports a failure. *)
Lemma transfer_failure_unreported (hre : Hre) (vault : string) (w : World)
  (e : Error) :
  first_failure hre vault = Some e →
  ∃ evs, transfer hre vault w = (Throw e, emits evs w) ∧
         (ConsoleLog "done" ∉ evs) ∧
         (∀ e', ConsoleError e' ∉ evs).
Proof.
  unfold transfer, first_failure. run. outcomes; intros Hf; simplify_eq.
  all: eexists; (split; [same_world|]).
  all: (split; [|intros e']); intros He; in_events.
Qed.

(** C1, as stated, fails. When the name of the vault does not resolve,
    [transfer] ends with that error after three events; the name of the
    strategy is not resolved and nothing is submitted. *)
Lemma C1_counterexample_vault_unresolved :
  deployments_get Scenario.hre_unresolved "foo-vault"
    = Throw Scenario.no_deployment ∧
  transfer Scenario.hre_unresolved "foo" Scenario.fresh_checkout
    = (Throw Scenario.no_deployment,
       emits [GetNamedAccounts; GetSigner (Some "0xD0");
              DeploymentsGet "foo-vault"] Scenario.fresh_checkout) ∧
  DeploymentsGet "foo-strat"
    ∉ trace (transfer Scenario.hre_unresolved "foo"
                      Scenario.fresh_checkout).2.
Proof.
  split; [reflexivity|]. split; [reflexivity|].
  intros H. simpl in H. in_events.
Qed.

(** The run of [transfer foo] when everything succeeds. *)
Lemma C8_transfer_foo :
  let evs :=
    vault_events "foo" Scenario.named_accounts "0xD0"
                 (mkDeployment "@foo-vault") (mkTx "tx:@foo-vault" (Return tt))
    ++ strat_events "foo" Scenario.named_accounts "0xD0"
                 (mkDeployment "@foo-strat") (mkTx "tx:@foo-strat" (Return tt))
    ++ [ConsoleLog "done"] in
  transfer Scenario.hre_ok "foo" Scenario.fresh_checkout
    = (Return tt, emits evs Scenario.fresh_checkout) ∧
  resolved_names evs = ["foo-vault"; "foo-strat"] ∧
  submissions evs =
    [("@foo-vault", Some "0xD0", "transferOwnership", [Some "0xA3"]);
     ("@foo-strat", Some "0xD0", "transferOwnership", [Some "0xB4"])].
Proof.
  pose proof (C8_transfer_scenario Scenario.hre_ok "foo"
    Scenario.fresh_checkout Scenario.named_accounts "0xD0"
    (mkDeployment "@foo-vault") (mkDeployment "@foo-strat")
    (mkTx "tx:@foo-vault" (Return tt)) (mkTx "tx:@foo-strat" (Return tt))
    eq_refl eq_refl eq_refl eq_refl eq_refl eq_refl eq_refl eq_refl)
    as (Hrun & Hnames & Hsub & _).
  split; [exact Hrun|]. split; [exact Hnames | exact Hsub].
Defined.

(** ** Descriptor allocation *)

Lemma first_free_free (t : gmap nat string) (fuel n : nat) :
  (∀ i, (i < n)%nat → is_Some (t !! i)) →
  (n + fuel = size t)%nat →
  t !! Fs.first_free t n fuel = None.
Proof.
  revert n. induction fuel as [|k IH]; intros n Hocc Hsize; simpl.
  - destruct (t !! n) eqn:Hn; [exfalso|reflexivity].
    assert (Hsub : set_seq (C:=gset nat) 0 (S n) ⊆ dom t).
    { intros i Hi. apply elem_of_set_seq in Hi. apply elem_of_dom.
      destruct (decide (i = n)) as [->|Hne]; [by rewrite Hn|].
      apply Hocc. lia. }
    apply subseteq_size in Hsub.
    rewrite size_set_seq, size_dom in Hsub. lia.
  - destruct (t !! n) eqn:Hn; [|exact Hn].
    apply IH; [|lia].
    intros i Hi. destruct (decide (i = n)) as [->|Hne]; [by rewrite Hn|].
    apply Hocc. lia.
Qed.

Lemma lowest_free_free (t : gmap nat string) : t !! Fs.lowest_free t = None.
Proof. apply first_free_free; [intros i Hi; lia | lia]. Qed.

(** With the standard input open, a new descriptor is never 0. *)
Lemma lowest_free_nonzero (t : gmap nat string) :
  is_Some (t !! 0%nat) → Fs.lowest_free t ≠ 0%nat.
Proof.
  intros [x Hx] Hz. pose proof (lowest_free_free t) as Hf.
  rewrite Hz in Hf. congruence.
Qed.

(** ** Credential generation *)

Lemma generate_accounts_body_steps (hre : Hre) :
  generate_accounts_body hre =
    (config_dir_step;;
     key_step hre DEPLOYER_PK_FILE "Deployer account: "
              "Deployer key exists. Not overwriting";;
     key_step hre OTHER_PK_FILE "Other account  : "
              "Other key exists. Not overwriting").
Proof. reflexivity. Qed.

Lemma exists_path_file (w : World) (path : string) (f : FileNode) :
  files w !! path = Some f → Fs.exists_path w path = true.
Proof.
  intros H. unfold Fs.exists_path. rewrite H.
  rewrite bool_decide_eq_true_2; [reflexivity | by eexists].
Qed.

Lemma exists_path_emits (evs : list Event) (w : World) (path : string) :
  Fs.exists_path (emits evs w) path = Fs.exists_path w path.
Proof. reflexivity. Qed.

Lemma exists_path_false (w : World) (path : string) :
  Fs.exists_path w path = false →
  files w !! path = None ∧ path ∉ dirs w.
Proof.
  unfold Fs.exists_path. intros H. apply orb_false_iff in H as [Hf Hd].
  apply bool_decide_eq_false in Hf. apply bool_decide_eq_false in Hd.
  split; [|exact Hd].
  destruct (files w !! path) eqn:E; [|reflexivity].
  exfalso. apply Hf. by eexists.
Qed.

Lemma key_files_differ : DEPLOYER_PK_FILE ≠ OTHER_PK_FILE.
Proof. discriminate. Qed.

Lemma key_paths_not_dir :
  DEPLOYER_PK_FILE ≠ ".config" ∧ OTHER_PK_FILE ≠ ".config".
Proof. split; discriminate. Qed.

(** Two worlds are equal when their components are. *)
Lemma world_eq (w1 w2 : World) :
  files w1 = files w2 → dirs w1 = dirs w2 → fds w1 = fds w2 →
  environ w1 = environ w2 → networks w1 = networks w2 →
  draws w1 = draws w2 → os w1 = os w2 → umask w1 = umask w2 →
  trace w1 = trace w2 →
  w1 = w2.
Proof. destruct w1, w2; simpl; intros; congruence. Qed.

Ltac run_fs :=
  unfold key_step, config_dir_step, release_file, assign_file,
    assign_account, Wallet_createRandom, Fs.mkdirSync, Fs.openSync_wx,
    Fs.writeFileSync, Fs.closeSync, Fs.readFileSync in *;
  run.

(** A key step ends in the world [key_after] with the result
    [key_result]; when it returns, no live descriptor is left in
    [file]. *)
Lemma key_step_run (hre : Hre) (path created present : string)
  (l : Locals) (w : World) :
  truthy_file (file l) = false →
  ∃ l',
    key_step hre path created present (l, w)
      = (key_result path w, (l', key_after hre path created present w)) ∧
    (key_result path w = Return tt → truthy_file (file l') = false).
Proof.
  destruct l as [a f]. simpl. intros Hf.
  pose proof (lowest_free_free (fds w)) as Hfree.
  unfold key_after, key_events, key_state, key_result, report.
  run_fs.
  destruct (open_fault (os w) path) as [e|] eqn:Hopen; simpl.
  { case_decide; simpl; rewrite Hf; eexists;
      (split; [by rewrite emits_emits | intros _; exact Hf]). }
  destruct (Fs.exists_path _ _) eqn:Hex; simpl.
  { rewrite Hf. eexists.
    split; [by rewrite emits_emits | intros _; exact Hf]. }
  unfold key_created, closing, kept_open.
  remember (Fs.lowest_free (fds w)) as fd eqn:Hfd.
  rewrite lookup_insert_eq.
  destruct (createRandom hre (draws w)) as [acc|e] eqn:Hrand; simpl;
    [destruct (write_fault (os w) path) as [e|] eqn:Hwrite; simpl|].
  all: try case_decide; simpl.
  all: destruct (Nat.eqb fd 0) eqn:Hz; simpl;
         rewrite ?lookup_insert_eq; simpl.
  all: destruct (close_fault (os w) path) as [ec|] eqn:Hclose; simpl.
  all: eexists; split;
         [refine (f_equal (λ x, (_, (_, x))) _)
         |intros Hr; first [discriminate Hr
                           |simpl; rewrite ?Hz; reflexivity]].
  all: apply world_eq; simpl; try reflexivity.
  all: try (by rewrite alter_insert_eq).
  all: try (by apply delete_insert_id).
  all: unfold emits; simpl; by repeat rewrite <- app_assoc.
Qed.

Lemma config_dir_step_run (l : Locals) (w : World) :
  config_dir_step (l, w) = (Return tt, (l, dir_after w)).
Proof.
  unfold dir_after. run_fs. destruct l as [a f].
  destruct (mkdir_fault (os w) ".config"); simpl; [reflexivity|].
  destruct (Fs.exists_path _ _) eqn:Hex; reflexivity.
Qed.

(** The task ends in the world [generate_after] with the result
    [generate_result]. *)
Lemma generate_accounts_run (hre : Hre) (w : World) :
  generate_accounts hre w = (generate_result hre w, generate_after hre w).
Proof.
  unfold generate_accounts. rewrite generate_accounts_body_steps.
  unfold generate_result, generate_after, deployer_after.
  unfold mbind, M_bind, bind. rewrite config_dir_step_run.
  destruct (key_step_run hre DEPLOYER_PK_FILE "Deployer account: "
              "Deployer key exists. Not overwriting"
              (mkLocals None FUndefined) (dir_after w) eq_refl)
    as (l2 & -> & Hl2).
  destruct (key_result DEPLOYER_PK_FILE (dir_after w)) as [[]|e];
    [|reflexivity].
  destruct (key_step_run hre OTHER_PK_FILE "Other account  : "
              "Other key exists. Not overwriting" l2
              (key_after hre DEPLOYER_PK_FILE "Deployer account: "
                 "Deployer key exists. Not overwriting" (dir_after w))
              (Hl2 eq_refl))
    as (l3 & -> & _).
  reflexivity.
Qed.

Lemma generate_accounts_world (hre : Hre) (w : World) :
  (generate_accounts hre w).2 = generate_after hre w.
Proof. by rewrite generate_accounts_run. Qed.

Lemma generate_accounts_result (hre : Hre) (w : World) :
  (generate_accounts hre w).1 = generate_result hre w.
Proof. by rewrite generate_accounts_run. Qed.

(** Case analysis on how a key step went. *)
Ltac key_cases :=
  unfold key_after, key_state, key_events, key_created, kept_open, closing;
  repeat case_match; simpl.

Section KeyStep.
Context (hre : Hre) (path created present : string) (w : World).
Local Abbreviation w' := (key_after hre path created present w).

Lemma key_after_trace :
  trace w' = trace w ++ key_events hre path created present w.
Proof. unfold key_after. key_cases; reflexivity. Qed.


Lemma key_after_frame :
  environ w' = environ w ∧ networks w' = networks w ∧
  os w' = os w ∧ dirs w' = dirs w ∧ umask w' = umask w.
Proof. key_cases; repeat split. Qed.

Lemma key_after_other_files (p : string) :
  p ≠ path → files w' !! p = files w !! p.
Proof. intros Hp. key_cases; by rewrite ?lookup_insert_ne. Qed.

Lemma key_after_keeps (p : string) (f : FileNode) :
  files w !! p = Some f → files w' !! p = Some f.
Proof.
  intros Hf. destruct (decide (p = path)) as [->|Hp].
  - unfold key_after, key_state.
    rewrite (exists_path_file _ _ _ Hf). by case_match.
  - by rewrite key_after_other_files.
Qed.

Lemma key_after_created (f : FileNode) :
  files w !! path = None → files w' !! path = Some f →
  f_mode f = Z.ldiff 384 (umask w) ∧
  (f_data f = "" ∨
   ∃ acc, createRandom hre (draws w) = Return acc ∧
          write_fault (os w) path = None ∧ f_data f = privateKey acc).
Proof.
  intros Hnone. key_cases; rewrite ?lookup_insert_eq; intros Hf;
    simplify_eq; simpl; (split; [reflexivity|]); eauto 10.
Qed.

Lemma key_after_fds :
  is_Some (fds w !! 0%nat) → fds w' = fds w.
Proof.
  intros Hstdin. pose proof (lowest_free_nonzero _ Hstdin) as Hnz.
  key_cases; try reflexivity.
  all: exfalso; apply Hnz; by apply Nat.eqb_eq.
Qed.



Lemma key_after_draws :
  (draws w ≤ draws w' ≤ S (draws w))%nat.
Proof. key_cases; lia. Qed.

Lemma key_result_returns :
  close_fault (os w) path = None → key_result path w = Return tt.
Proof. intros Hc. unfold key_result. rewrite Hc. by repeat case_match. Qed.

Lemma key_result_throws (e : Error) :
  key_result path w = Throw e →
  close_fault (os w) path = Some e ∧ open_fault (os w) path = None ∧
  Fs.exists_path w path = false.
Proof. unfold key_result. repeat case_match; intros; by simplify_eq. Qed.
End KeyStep.

(** A step for another path does not change whether [path] exists. *)
Lemma key_after_exists_other (hre : Hre) (q created present path : string)
  (w : World) :
  path ≠ q →
  Fs.exists_path (key_after hre q created present w) path
    = Fs.exists_path w path.
Proof.
  intros Hne. unfold Fs.exists_path.
  rewrite key_after_other_files by done.
  destruct (key_after_frame hre q created present w)
    as (_ & _ & _ & -> & _).
  reflexivity.
Qed.

Section DirStep.
Context (w : World).

Lemma dir_after_frame :
  files (dir_after w) = files w ∧ fds (dir_after w) = fds w ∧
  environ (dir_after w) = environ w ∧
  networks (dir_after w) = networks w ∧ os (dir_after w) = os w ∧
  draws (dir_after w) = draws w ∧
  trace (dir_after w) = trace w ++ [Mkdir ".config"].
Proof. unfold dir_after. repeat case_match; repeat split. Qed.

Lemma dir_after_umask : umask (dir_after w) = umask w.
Proof. unfold dir_after. by repeat case_match. Qed.

Lemma dir_after_dirs :
  dirs (dir_after w) = dirs w ∨
  dirs (dir_after w) = {[".config"]} ∪ dirs w.
Proof. unfold dir_after. repeat case_match; simpl; auto. Qed.


Lemma dir_after_exists_path (path : string) :
  path ≠ ".config" →
  Fs.exists_path (dir_after w) path = Fs.exists_path w path.
Proof.
  intros Hp. unfold dir_after. repeat case_match; try reflexivity.
  unfold Fs.exists_path; simpl. f_equal.
  apply bool_decide_ext. rewrite elem_of_union, elem_of_singleton. tauto.
Qed.
End DirStep.

(** *** The task as a whole *)

Section Generate.
Context (hre : Hre) (w : World).

Lemma deployer_after_frame :
  environ (deployer_after hre w) = environ w ∧
  networks (deployer_after hre w) = networks w ∧
  os (deployer_after hre w) = os w ∧
  umask (deployer_after hre w) = umask w ∧
  (dirs (deployer_after hre w) = dirs w ∨
   dirs (deployer_after hre w) = {[".config"]} ∪ dirs w).
Proof.
  unfold deployer_after.
  destruct (key_after_frame hre DEPLOYER_PK_FILE "Deployer account: "
              "Deployer key exists. Not overwriting" (dir_after w))
    as (-> & -> & -> & -> & ->).
  destruct (dir_after_frame w) as (_ & _ & -> & -> & -> & _).
  rewrite dir_after_umask. repeat split. apply dir_after_dirs.
Qed.

Lemma generate_after_frame :
  environ (generate_after hre w) = environ w ∧
  networks (generate_after hre w) = networks w ∧
  os (generate_after hre w) = os w ∧
  (dirs (generate_after hre w) = dirs w ∨
   dirs (generate_after hre w) = {[".config"]} ∪ dirs w).
Proof.
  destruct deployer_after_frame as (He & Hn & Ho & Hu & Hd).
  unfold generate_after. case_match; [|done].
  destruct (key_after_frame hre OTHER_PK_FILE "Other account  : "
              "Other key exists. Not overwriting" (deployer_after hre w))
    as (-> & -> & -> & -> & _).
  done.
Qed.

Lemma generate_after_keeps (p : string) (f : FileNode) :
  files w !! p = Some f → files (generate_after hre w) !! p = Some f.
Proof.
  intros Hf.
  assert (H2 : files (deployer_after hre w) !! p = Some f).
  { unfold deployer_after. apply key_after_keeps.
    by rewrite (proj1 (dir_after_frame w)). }
  unfold generate_after. case_match; [|exact H2].
  by apply key_after_keeps.
Qed.

Lemma generate_after_fds :
  is_Some (fds w !! 0%nat) → fds (generate_after hre w) = fds w.
Proof.
  intros Hstdin.
  destruct (dir_after_frame w) as (_ & Hfd & _).
  assert (H2 : fds (deployer_after hre w) = fds w).
  { unfold deployer_after. rewrite key_after_fds by (by rewrite Hfd).
    exact Hfd. }
  unfold generate_after. case_match; [|exact H2].
  rewrite key_after_fds by (by rewrite H2). exact H2.
Qed.

Lemma generate_after_trace :
  trace (generate_after hre w)
    = trace w ++ Mkdir ".config" :: generate_events hre w.
Proof.
  destruct (dir_after_frame w) as (_ & _ & _ & _ & _ & _ & Htr).
  unfold generate_after, generate_events, deployer_after.
  case_match; rewrite !key_after_trace, Htr;
    rewrite <- ?app_assoc; simpl; by rewrite ?app_nil_r.
Qed.

Lemma generate_result_returns :
  close_fault (os w) DEPLOYER_PK_FILE = None →
  close_fault (os w) OTHER_PK_FILE = None →
  generate_result hre w = Return tt.
Proof.
  intros HcD HcO. unfold generate_result.
  destruct (dir_after_frame w) as (_ & _ & _ & _ & Hos & _).
  rewrite key_result_returns by (by rewrite Hos).
  apply key_result_returns.
  destruct deployer_after_frame as (_ & _ & -> & _). exact HcO.
Qed.
End Generate.



(** C7. No descriptor of a key file stays open. Whatever the outcome of
    each step (the file exists, its creation fails, the key generation or
    the write fails, closing fails, or everything succeeds), the table of
    open descriptors after [generate_accounts] is the table before it; and
    the task returns normally when no close fails. The standard input is
    open, as it is in a Node process, so that no new descriptor is 0. *)
Theorem C7_descriptors_released (hre : Hre) (w : World) :
  is_Some (fds w !! 0%nat) →
  fds (generate_accounts hre w).2 = fds w ∧
  (close_fault (os w) DEPLOYER_PK_FILE = None →
   close_fault (os w) OTHER_PK_FILE = None →
   (generate_accounts hre w).1 = Return tt).
Proof.
  intros Hstdin. split.
  - rewrite generate_accounts_world. by apply generate_after_fds.
  - intros HcD HcO. rewrite generate_accounts_result.
    by apply generate_result_returns.
Qed.


(** In a fresh checkout both keys are created and both descriptors are
    closed again. *)
Lemma C7_fresh_checkout :
  fds (generate_accounts Scenario.hre_ok Scenario.fresh_checkout).2
    = Scenario.stdio ∧
  (close_fault (os Scenario.fresh_checkout) DEPLOYER_PK_FILE = None →
   close_fault (os Scenario.fresh_checkout) OTHER_PK_FILE = None →
   (generate_accounts Scenario.hre_ok Scenario.fresh_checkout).1
     = Return tt).
Proof.
  apply (C7_descriptors_released Scenario.hre_ok Scenario.fresh_checkout).
  exists "/dev/stdin". reflexivity.
Defined.

Example generate_accounts_fresh_checkout :
  trace (generate_accounts Scenario.hre_ok Scenario.fresh_checkout).2 =
    [Mkdir ".config";
     OpenWx DEPLOYER_PK_FILE 384; CreateRandom; WriteFd 3 "key-0";
     ConsoleLog "Deployer account: 0xF0"; CloseFd 3;
     OpenWx OTHER_PK_FILE 384; CreateRandom; WriteFd 3 "key-1";
     ConsoleLog "Other account  : 0xF1"; CloseFd 3] ∧
  files (generate_accounts Scenario.hre_ok Scenario.fresh_checkout).2
    !! DEPLOYER_PK_FILE = Some (mkFile 384 "key-0") ∧
  files (generate_accounts Scenario.hre_ok Scenario.fresh_checkout).2
    !! OTHER_PK_FILE = Some (mkFile 384 "key-1").
Proof. vm_compute. repeat split. Qed.



(** ** Where failures are caught and where they are not *)

Ltac ends_in_report_proof task Hc :=
  unfold ends_in_report, task; run; rewrite Hc; simpl; outcomes;
  repeat rewrite emits_emits; simpl;
  first [ by eexists [_; _; _], _ | by eexists [_; _], _ ].

(** C2, as the tasks behave. In [panic], [unpause] and [harvest] every
    failure after the resolution of the strategy contract (submission,
    confirmation) is caught: the task returns normally and ends with a
    console line; a failure of the resolution itself is not caught and is
    the result of the task. [generate_accounts] catches every failure of
    its steps but one: closing a key file it created happens in the
    [finally] block, outside every [try], so the task returns normally
    when no close fails, the only error that can leave it is that of a
    failed close, and a failed close of the deployer key file does leave
    it. [transfer] catches nothing: its result is the first failure among
    its calls, and it returns normally only when there is none. *)
Theorem C2_failure_boundaries (hre : Hre) (w : World) :
  (∀ strat c,
     getContractAt hre "IStrategy" strat = Return c →
     ends_in_report panic hre strat w ∧
     ends_in_report unpause hre strat w ∧
     ends_in_report harvest hre strat w) ∧
  (∀ strat e,
     getContractAt hre "IStrategy" strat = Throw e →
     resolution_escapes panic hre strat w e ∧
     resolution_escapes unpause hre strat w e ∧
     resolution_escapes harvest hre strat w e) ∧
  (close_fault (os w) DEPLOYER_PK_FILE = None →
   close_fault (os w) OTHER_PK_FILE = None →
   (generate_accounts hre w).1 = Return tt) ∧
  (∀ e, (generate_accounts hre w).1 = Throw e →
     close_fault (os w) DEPLOYER_PK_FILE = Some e ∨
     close_fault (os w) OTHER_PK_FILE = Some e) ∧
  (∀ e, Fs.exists_path w DEPLOYER_PK_FILE = false →
     open_fault (os w) DEPLOYER_PK_FILE = None →
     is_Some (fds w !! 0%nat) →
     close_fault (os w) DEPLOYER_PK_FILE = Some e →
     (generate_accounts hre w).1 = Throw e) ∧
  (∀ vault,
     (transfer hre vault w).1 =
       match first_failure hre vault with
       | Some e => Throw e
       | None => Return tt
       end).
Proof.
  destruct (dir_after_frame w) as (_ & Hfd1 & _ & _ & Hos1 & _).
  destruct (deployer_after_frame hre w) as (_ & _ & Hos2 & _).
  split; [|split; [|split; [|split; [|split]]]].
  - intros strat c Hc. split; [|split].
    + ends_in_report_proof panic Hc.
    + ends_in_report_proof unpause Hc.
    + ends_in_report_proof harvest Hc.
  - intros strat e He. unfold resolution_escapes.
    split; [|split]; [unfold panic|unfold unpause|unfold harvest];
      run; rewrite He; reflexivity.
  - intros HcD HcO. rewrite generate_accounts_result.
    by apply generate_result_returns.
  - intros e. rewrite generate_accounts_result. unfold generate_result.
    destruct (key_result DEPLOYER_PK_FILE (dir_after w)) as [[]|e1] eqn:Hr1.
    + intros Hr. apply key_result_throws in Hr as (Hc & _).
      right. by rewrite Hos2 in Hc.
    + intros [= ->]. apply key_result_throws in Hr1 as (Hc & _).
      left. by rewrite Hos1 in Hc.
  - intros e Hex Hopen Hstdin Hclose. rewrite generate_accounts_result.
    unfold generate_result, key_result.
    rewrite Hos1, Hopen, Hclose, Hfd1.
    rewrite dir_after_exists_path, Hex by apply key_paths_not_dir.
    apply lowest_free_nonzero, Nat.eqb_neq in Hstdin. by rewrite Hstdin.
  - intros vault. apply transfer_result.
Qed.

(** C2, as stated, fails. A failure to resolve the strategy contract
    leaves [panic] uncaught, and a reverted submission leaves [transfer]
    uncaught; neither is turned into a console line. *)
Lemma C2_counterexample_uncaught_failures :
  panic Scenario.hre_no_contract "0x51" Scenario.fresh_checkout
    = (Throw Scenario.no_deployment,
       emits [GetContractAt "IStrategy" "0x51"] Scenario.fresh_checkout) ∧
  transfer Scenario.hre_reverting "foo" Scenario.fresh_checkout
    = (Throw Scenario.reverted,
       emits [GetNamedAccounts;
              GetSigner (Some "0xD0");
              DeploymentsGet "foo-vault";
              StdoutWrite ("Transfering ownership of " +:+ dq +:+ "foo-vault"
                           +:+ dq +:+ " at " +:+ dq +:+ "@foo-vault" +:+ dq
                           +:+ " to " +:+ dq +:+ "0xA3" +:+ dq);
              SendTx "@foo-vault" (Some "0xD0") "transferOwnership"
                     [Some "0xA3"]]
             Scenario.fresh_checkout).
Proof. split; reflexivity. Qed.

(** ** Fork resolution *)

(** C5, as the task behaves. When the fork identifier names a profile of
    the network table, [node] calls [runSuper] with that profile's endpoint
    as fork source, with [noReset] set and [write] cleared, the other
    arguments unchanged; a chain identifier that is declared and not zero
    replaces the chain identifier of both [hardhat] and [localhost], while
    an absent one, or zero, leaves the table as it is. When the identifier
    names no profile but is a name every object inherits ([toString],
    [constructor], ...), the table still answers to it, with a value that
    has neither endpoint nor chain identifier: [runSuper] is called with
    no fork source, [noReset] set and [write] cleared, and the table is as
    it was. When the identifier is neither, [runSuper] is called with the
    arguments and in the world of the invocation. *)
Theorem C5_fork_resolution (taskArgs : NodeArgs)
  (runSuper : NodeArgs → M World unit) (w : World) :
  let key := str (fork taskArgs) in
  (∀ p, networks_get (networks w) key = Some p →
     node taskArgs runSuper w =
       runSuper (mkNodeArgs (url p) true false (others taskArgs))
                (forked_world key p w) ∧
     (∀ c, chainId p = Some c → c ≠ 0 →
        chainId (hardhat (networks (forked_world key p w))) = Some c ∧
        chainId (localhost (networks (forked_world key p w))) = Some c ∧
        url (hardhat (networks (forked_world key p w)))
          = url (hardhat (networks w)) ∧
        url (localhost (networks (forked_world key p w)))
          = url (localhost (networks w)) ∧
        named (networks (forked_world key p w)) = named (networks w)) ∧
     (chainId p = None ∨ chainId p = Some 0 →
        networks (forked_world key p w) = networks w)) ∧
  (networks_get (networks w) key = None →
   key ∈ object_prototype_keys →
     node taskArgs runSuper w =
       runSuper (mkNodeArgs None true false (others taskArgs))
                (forked_world key (mkNetwork None None) w) ∧
     networks (forked_world key (mkNetwork None None) w) = networks w) ∧
  (networks_get (networks w) key = None →
   key ∉ object_prototype_keys →
     node taskArgs runSuper w = runSuper taskArgs w).
Proof.
  intros key. split; [|split].
  - intros p Hp. split; [|split].
    + unfold node, networks_index, forked_world. run. fold key.
      rewrite Hp. simpl.
      destruct (truthy_number (chainId p)); reflexivity.
    + intros c Hc Hz. unfold forked_world, truthy_number. rewrite Hc.
      apply Z.eqb_neq in Hz. rewrite Hz. simpl. repeat split.
    + intros [Hc|Hc]; unfold forked_world; rewrite Hc; reflexivity.
  - intros Hnone Hin. split; [|reflexivity].
    unfold node, networks_index. run. fold key. rewrite Hnone.
    by rewrite bool_decide_eq_true_2.
  - intros Hnone Hin. unfold node, networks_index. run. fold key.
    rewrite Hnone. by rewrite bool_decide_eq_false_2.
Qed.

(** C5, as stated, fails. A profile that declares the chain identifier 0
    is found and forked from, yet the chain identifiers of [hardhat] and
    [localhost] stay what they were. *)
Lemma C5_counterexample_chain_id_zero :
  let w0 := mkWorld ∅ ∅ Scenario.stdio ∅ networks_with_zero 0
                    Scenario.quiet 18 [] in
  let args := mkNodeArgs (Some "devchain") false true ∅ in
  let w' := (node args (λ _, emit RunSuper) w0).2 in
  networks_get (networks w0) "devchain"
    = Some (mkNetwork (Some "http://127.0.0.1:7545") (Some 0)) ∧
  chainId (hardhat (networks w')) = Some 31337 ∧
  chainId (localhost (networks w')) = None ∧
  trace w' = [ConsoleLog "Forking devchain from RPC: http://127.0.0.1:7545";
              RunSuper].
Proof. repeat split. Qed.

(** Forking from [bsc] with the table of the file: the local chain
    identifier becomes 56 and nothing is written to disk. *)
Example node_fork_bsc :
  let w0 := Scenario.fresh_checkout in
  let args := mkNodeArgs (Some "bsc") false true ∅ in
  let run := node args (λ a, if write a then emit RunSuper
                             else console_log (str (fork a))) w0 in
  chainId (hardhat (networks run.2)) = Some 56 ∧
  chainId (localhost (networks run.2)) = Some 56 ∧
  environ run.2 !! "HARDHAT_DEPLOY_FORK" = Some "bsc" ∧
  trace run.2 =
    [ConsoleLog "Forking bsc from RPC: https://bsc-dataseed.binance.org/";
     ConsoleLog "https://bsc-dataseed.binance.org/"].
Proof. repeat split. Qed.

(** ** Loading the deployer key *)

(** C6, as the loading behaves. When [DEPLOYER_PK] is set in the
    environment to a non-empty value, [deployerAccount] is that value and
    the key file is not read: the world, trace included, is unchanged.
    A variable that is unset, or set to the empty string, is no override:
    the key file is read. When it is then not there (the read fails with
    [ENOENT]), the loading returns normally with no account, after the one
    line that names the missing file and the task that creates it; when
    the read is refused for another reason, that error is passed to
    [console.error], and the loading returns normally with no account as
    well. *)
Theorem C6_deployer_key_loading (w : World) :
  (∀ pk, environ w !! "DEPLOYER_PK" = Some pk → pk ≠ "" →
     deployerAccount w = (Return (Some [pk]), w)) ∧
  (truthy_string (environ w !! "DEPLOYER_PK") = false →
   files w !! DEPLOYER_PK_FILE = None →
   DEPLOYER_PK_FILE ∉ dirs w →
   read_fault (os w) DEPLOYER_PK_FILE = None →
     deployerAccount w =
       (Return None,
        emits [ReadFile DEPLOYER_PK_FILE;
               ConsoleLog "Deployer account not found. Create .config/DEPLOYER_PK or run `hardhat generate_accounts`."]
              w)) ∧
  (∀ e, truthy_string (environ w !! "DEPLOYER_PK") = false →
   files w !! DEPLOYER_PK_FILE = None →
   DEPLOYER_PK_FILE ∉ dirs w →
   read_fault (os w) DEPLOYER_PK_FILE = Some e →
   code e ≠ Some "ENOENT" →
     deployerAccount w =
       (Return None,
        emits [ReadFile DEPLOYER_PK_FILE; ConsoleError e] w)) ∧
  (truthy_string (environ w !! "DEPLOYER_PK") = false →
   files w !! DEPLOYER_PK_FILE = None →
   DEPLOYER_PK_FILE ∈ dirs w →
     deployerAccount w =
       (Return None,
        emits [ReadFile DEPLOYER_PK_FILE; ConsoleError Fs.EISDIR] w)).
Proof.
  split; [|split; [|split]].
  - intros pk Hpk Hne. unfold deployerAccount. run. rewrite Hpk. simpl.
    apply String.eqb_neq in Hne. rewrite Hne. reflexivity.
  - intros Henv Hfile Hdir Hread.
    unfold deployerAccount, Fs.readFileSync. run.
    rewrite Henv. simpl. rewrite Hfile. simpl.
    rewrite bool_decide_eq_false_2 by done. rewrite Hread. simpl.
    same_world.
  - intros e Henv Hfile Hdir Hread Hcode.
    unfold deployerAccount, Fs.readFileSync. run.
    rewrite Henv. simpl. rewrite Hfile. simpl.
    rewrite bool_decide_eq_false_2 by done. rewrite Hread. simpl.
    rewrite decide_False by done. simpl. same_world.
  - intros Henv Hfile Hdir.
    unfold deployerAccount, Fs.readFileSync. run.
    rewrite Henv. simpl. rewrite Hfile. simpl.
    rewrite bool_decide_eq_true_2 by done. simpl. same_world.
Qed.

(** C6, as stated, fails. With [DEPLOYER_PK] present in the environment
    but empty, the override does not take precedence: the key file is
    read, and its content is the account. *)
Lemma C6_counterexample_empty_override :
  let w := mkWorld {[DEPLOYER_PK_FILE := mkFile 384 "key-on-disk"]}
             {[".config"]} Scenario.stdio {["DEPLOYER_PK" := ""]}
             config_networks 0 Scenario.quiet 18 [] in
  environ w !! "DEPLOYER_PK" = Some "" ∧
  (deployerAccount w).1 = Return (Some ["key-on-disk"]) ∧
  trace (deployerAccount w).2 = [ReadFile DEPLOYER_PK_FILE].
Proof. repeat split. Qed.

Example deployer_key_from_environment :
  let w := mkWorld {[DEPLOYER_PK_FILE := mkFile 384 "key-on-disk"]} ∅
             Scenario.stdio {["DEPLOYER_PK" := "key-in-env"]}
             config_networks 0 Scenario.quiet 18 [] in
  deployerAccount w = (Return (Some ["key-in-env"]), w).
Proof. reflexivity. Qed.

Example deployer_key_from_file :
  let w := mkWorld {[DEPLOYER_PK_FILE := mkFile 384 "key-on-disk"]} ∅
             Scenario.stdio ∅ config_networks 0 Scenario.quiet 18 [] in
  deployerAccount w
    = (Return (Some ["key-on-disk"]), emits [ReadFile DEPLOYER_PK_FILE] w).
Proof. reflexivity. Qed.

(** * Further properties *)

(** ** What [generate_accounts] does to the file system *)

(** X1. [generate_accounts] changes no file that exists: whatever is on
    disk before the task, under any path, is there unchanged after it,
    whichever of its steps fail. *)
Theorem generate_accounts_keeps_files (hre : Hre) (w : World)
  (p : string) (f : FileNode) :
  files w !! p = Some f →
  files (generate_accounts hre w).2 !! p = Some f.
Proof.
  intros Hf. rewrite generate_accounts_world.
  by apply generate_after_keeps.
Qed.

Lemma generate_accounts_keeps_readme :
  files (generate_accounts Scenario.hre_ok Fixture.with_keys).2 !! "README.md"
    = Some (mkFile 420 "# beefy").
Proof.
  apply (generate_accounts_keeps_files Scenario.hre_ok Fixture.with_keys
           "README.md" (mkFile 420 "# beefy")).
  reflexivity.
Defined.

Lemma generate_after_other_files (hre : Hre) (w : World) (p : string) :
  p ≠ DEPLOYER_PK_FILE → p ≠ OTHER_PK_FILE →
  files (generate_after hre w) !! p = files w !! p.
Proof.
  intros Hp Hq. destruct (dir_after_frame w) as (Hf1 & _).
  unfold generate_after, deployer_after.
  case_match; rewrite !key_after_other_files by done; by rewrite Hf1.
Qed.

(** X2. The footprint of [generate_accounts]: the environment, the network
    table and every path other than the two key files are as before; the
    only directory it may add is [.config]; a file that is there after
    the task and was not before is one of the two key files, and its mode
    is 0600 less the bits of the file mode creation mask of the
    process. *)
Theorem generate_accounts_footprint (hre : Hre) (w : World) :
  let w' := (generate_accounts hre w).2 in
  environ w' = environ w ∧
  networks w' = networks w ∧
  (dirs w' = dirs w ∨ dirs w' = {[".config"]} ∪ dirs w) ∧
  (∀ p, p ≠ DEPLOYER_PK_FILE → p ≠ OTHER_PK_FILE →
     files w' !! p = files w !! p) ∧
  (∀ p f, files w !! p = None → files w' !! p = Some f →
     (p = DEPLOYER_PK_FILE ∨ p = OTHER_PK_FILE) ∧
     f_mode f = Z.ldiff 384 (umask w)).
Proof.
  intros w'. subst w'. rewrite generate_accounts_world.
  destruct (generate_after_frame hre w) as (He & Hn & _ & Hd).
  split; [exact He|]. split; [exact Hn|]. split; [exact Hd|].
  split; [intros p; apply generate_after_other_files|].
  intros p f Hnone Hsome.
  destruct (dir_after_frame w) as (Hf1 & _).
  destruct (deployer_after_frame hre w) as (_ & _ & _ & Hu2 & _).
  assert (HD : ∀ g, files (deployer_after hre w) !! DEPLOYER_PK_FILE = Some g →
               files w !! DEPLOYER_PK_FILE = None →
               f_mode g = Z.ldiff 384 (umask w)).
  { intros g Hg Hn0. rewrite <- (dir_after_umask w).
    eapply key_after_created; [|exact Hg]. by rewrite Hf1. }
  destruct (decide (p = DEPLOYER_PK_FILE)) as [->|Hp].
  { split; [by left|]. apply HD; [|exact Hnone].
    revert Hsome. unfold generate_after. case_match; [|done].
    by rewrite key_after_other_files by apply key_files_differ. }
  destruct (decide (p = OTHER_PK_FILE)) as [->|Hq].
  { split; [by right|].
    assert (Hn2 : files (deployer_after hre w) !! OTHER_PK_FILE = None).
    { unfold deployer_after. rewrite key_after_other_files by done.
      by rewrite Hf1. }
    revert Hsome. unfold generate_after. case_match; [|congruence].
    intros Hsome. rewrite <- Hu2.
    eapply key_after_created; [exact Hn2|exact Hsome]. }
  rewrite generate_after_other_files in Hsome by done. congruence.
Qed.

(** The run of a key step in which everything succeeds. *)
Lemma key_after_success (hre : Hre) (path created present : string)
  (w : World) (acc : Wallet) :
  Fs.exists_path w path = false →
  open_fault (os w) path = None →
  createRandom hre (draws w) = Return acc →
  write_fault (os w) path = None →
  is_Some (fds w !! 0%nat) →
  key_after hre path created present w =
    emits [OpenWx path 384; CreateRandom;
           WriteFd (Fs.lowest_free (fds w)) (privateKey acc);
           ConsoleLog (created +:+ w_address acc);
           CloseFd (Fs.lowest_free (fds w))]
      (set_draws S
         (set_files (<[path := mkFile (Z.ldiff 384 (umask w))
                                      (privateKey acc)]>) w)).
Proof.
  intros Hex Hopen Hrand Hwrite Hstdin.
  pose proof (lowest_free_nonzero _ Hstdin) as Hnz.
  apply Nat.eqb_neq in Hnz.
  unfold key_after, key_events, key_state, key_created, kept_open, closing.
  rewrite Hex, Hopen, Hrand, Hwrite, Hnz. simpl.
  by apply world_eq.
Qed.

(** X3. In a checkout where neither key path exists and no step fails,
    [generate_accounts] creates both key files, with mode 0600 less the
    bits of the file mode creation mask, each holding the private key of
    its own wallet (the first and the second drawn), reports the two
    addresses, and closes the descriptor of each file before it goes on;
    the descriptor table is as before. *)
Theorem generate_accounts_creates_both (hre : Hre) (w : World)
  (deployer other : Wallet) :
  Fs.exists_path w DEPLOYER_PK_FILE = false →
  Fs.exists_path w OTHER_PK_FILE = false →
  open_fault (os w) DEPLOYER_PK_FILE = None →
  open_fault (os w) OTHER_PK_FILE = None →
  write_fault (os w) DEPLOYER_PK_FILE = None →
  write_fault (os w) OTHER_PK_FILE = None →
  close_fault (os w) DEPLOYER_PK_FILE = None →
  close_fault (os w) OTHER_PK_FILE = None →
  createRandom hre (draws w) = Return deployer →
  createRandom hre (S (draws w)) = Return other →
  is_Some (fds w !! 0%nat) →
  let fd := Fs.lowest_free (fds w) in
  let mode := Z.ldiff 384 (umask w) in
  let w' := (generate_accounts hre w).2 in
  (generate_accounts hre w).1 = Return tt ∧
  files w' = <[OTHER_PK_FILE := mkFile mode (privateKey other)]>
               (<[DEPLOYER_PK_FILE := mkFile mode (privateKey deployer)]>
                  (files w)) ∧
  fds w' = fds w ∧
  draws w' = S (S (draws w)) ∧
  trace w' = trace w ++
    [Mkdir ".config";
     OpenWx DEPLOYER_PK_FILE 384; CreateRandom;
     WriteFd fd (privateKey deployer);
     ConsoleLog ("Deployer account: " +:+ w_address deployer);
     CloseFd fd;
     OpenWx OTHER_PK_FILE 384; CreateRandom;
     WriteFd fd (privateKey other);
     ConsoleLog ("Other account  : " +:+ w_address other);
     CloseFd fd].
Proof.
  intros HexD HexO HopD HopO HwrD HwrO HclD HclO HrD HrO Hstdin fd mode w'.
  subst fd mode w'.
  rewrite generate_accounts_run. cbn [fst snd].
  split; [by apply generate_result_returns|].
  destruct key_paths_not_dir as [HnD HnO].
  destruct (dir_after_frame w) as (Hf1 & Hfd1 & He1 & Hn1 & Hos1 & Hdr1 & Htr1).
  pose proof (dir_after_umask w) as Hu1.
  assert (Hex1 : Fs.exists_path (dir_after w) DEPLOYER_PK_FILE = false)
    by (by rewrite dir_after_exists_path).
  assert (Hex2 : Fs.exists_path (dir_after w) OTHER_PK_FILE = false)
    by (by rewrite dir_after_exists_path).
  assert (Hstdin1 : is_Some (fds (dir_after w) !! 0%nat))
    by (by rewrite Hfd1).
  unfold generate_after, deployer_after.
  rewrite (key_result_returns DEPLOYER_PK_FILE (dir_after w))
    by (by rewrite Hos1).
  rewrite (key_after_success hre DEPLOYER_PK_FILE _ _ (dir_after w) deployer)
    by (rewrite ?Hos1, ?Hdr1; done).
  rewrite (key_after_success hre OTHER_PK_FILE _ _ _ other); simpl.
  - rewrite Hf1, Hfd1, Hdr1, Htr1, Hu1. repeat split.
    by repeat rewrite <- app_assoc.
  - rewrite exists_path_emits. unfold Fs.exists_path in *. simpl.
    rewrite lookup_insert_ne by apply key_files_differ. exact Hex2.
  - by rewrite Hos1.
  - by rewrite Hdr1.
  - by rewrite Hos1.
  - exact Hstdin1.
Qed.

Lemma generate_accounts_fresh_keys :
  let w' := (generate_accounts Scenario.hre_ok Scenario.fresh_checkout).2 in
  (generate_accounts Scenario.hre_ok Scenario.fresh_checkout).1 = Return tt ∧
  files w' = <[OTHER_PK_FILE := mkFile 384 "key-1"]>
               (<[DEPLOYER_PK_FILE := mkFile 384 "key-0"]> ∅) ∧
  fds w' = Scenario.stdio ∧
  draws w' = 2%nat ∧
  trace w' =
    [Mkdir ".config";
     OpenWx DEPLOYER_PK_FILE 384; CreateRandom; WriteFd 3 "key-0";
     ConsoleLog "Deployer account: 0xF0"; CloseFd 3;
     OpenWx OTHER_PK_FILE 384; CreateRandom; WriteFd 3 "key-1";
     ConsoleLog "Other account  : 0xF1"; CloseFd 3].
Proof.
  apply (generate_accounts_creates_both Scenario.hre_ok
           Scenario.fresh_checkout (mkWallet "0xF0" "key-0")
           (mkWallet "0xF1" "key-1"));
    try reflexivity.
  exists "/dev/stdin". reflexivity.
Defined.





(** ** Loading the key that was generated *)

(** With no usable override, a readable key file is the account. *)
Lemma deployerAccount_reads_file (w : World) (f : FileNode) :
  truthy_string (environ w !! "DEPLOYER_PK") = false →
  files w !! DEPLOYER_PK_FILE = Some f →
  read_fault (os w) DEPLOYER_PK_FILE = None →
  deployerAccount w
    = (Return (Some [f_data f]), emits [ReadFile DEPLOYER_PK_FILE] w).
Proof.
  intros Henv Hf Hread. unfold deployerAccount, Fs.readFileSync. run.
  rewrite Henv. simpl. rewrite Hf. simpl. rewrite Hread. reflexivity.
Qed.

(** The deployer key file after the task is what the deployer step left. *)
Lemma generate_after_deployer_file (hre : Hre) (w : World) :
  files (generate_after hre w) !! DEPLOYER_PK_FILE =
  files (key_state hre DEPLOYER_PK_FILE (dir_after w)) !! DEPLOYER_PK_FILE.
Proof.
  unfold generate_after, deployer_after. case_match; [|reflexivity].
  rewrite key_after_other_files by apply key_files_differ.
  reflexivity.
Qed.

(** X5. Generate, then load. When the deployer key is created and written
    without failure, and [DEPLOYER_PK] is unset or empty, loading
    [deployerAccount] after [generate_accounts] reads the key file once
    and yields exactly the private key that was generated, whatever
    happened to the other key. *)
Theorem generate_then_load (hre : Hre) (w : World) (acc : Wallet) :
  Fs.exists_path w DEPLOYER_PK_FILE = false →
  open_fault (os w) DEPLOYER_PK_FILE = None →
  createRandom hre (draws w) = Return acc →
  write_fault (os w) DEPLOYER_PK_FILE = None →
  truthy_string (environ w !! "DEPLOYER_PK") = false →
  read_fault (os w) DEPLOYER_PK_FILE = None →
  let w1 := (generate_accounts hre w).2 in
  deployerAccount w1
    = (Return (Some [privateKey acc]), emits [ReadFile DEPLOYER_PK_FILE] w1).
Proof.
  intros Hex Hopen Hrand Hwrite Henv Hread w1. subst w1.
  rewrite generate_accounts_world.
  destruct (generate_after_frame hre w) as (He & _ & Hos & _).
  destruct (dir_after_frame w) as (_ & _ & _ & _ & Hos1 & Hdr1 & _).
  apply (deployerAccount_reads_file _
           (mkFile (Z.ldiff 384 (umask (dir_after w))) (privateKey acc)));
    rewrite ?He, ?Hos; try done.
  rewrite generate_after_deployer_file. unfold key_state.
  rewrite dir_after_exists_path by apply key_paths_not_dir.
  rewrite Hex, Hos1, Hopen, Hdr1, Hrand, Hwrite.
  unfold key_created; simpl. apply lookup_insert_eq.
Qed.

Lemma generate_then_load_fresh :
  let w1 := (generate_accounts Scenario.hre_ok Scenario.fresh_checkout).2 in
  deployerAccount w1
    = (Return (Some ["key-0"]), emits [ReadFile DEPLOYER_PK_FILE] w1).
Proof.
  apply (generate_then_load Scenario.hre_ok Scenario.fresh_checkout
           (mkWallet "0xF0" "key-0")); reflexivity.
Defined.



(** ** What [generate_accounts] prints and writes *)

Lemma key_events_lines (hre : Hre) (path created present : string)
  (w : World) (line : string) :
  ConsoleLog line ∈ key_events hre path created present w →
  line = present ∨
  ∃ acc, createRandom hre (draws w) = Return acc ∧
         line = created +:+ w_address acc.
Proof.
  unfold key_events, report, closing.
  repeat case_match; simpl; intros Hin; in_events; eauto.
Qed.

Lemma key_events_writes (hre : Hre) (path created present : string)
  (w : World) (fd : nat) (data : string) :
  WriteFd fd data ∈ key_events hre path created present w →
  ∃ acc, createRandom hre (draws w) = Return acc ∧
         data = privateKey acc ∧
         Fs.exists_path w path = false.
Proof.
  unfold key_events, report, closing.
  repeat case_match; simpl; intros Hin; in_events; eauto.
Qed.

(** An event of the run belongs to the deployer key step or to the other
    key step. *)
Lemma generate_events_split (hre : Hre) (w : World) (ev : Event) :
  ev ∈ generate_events hre w →
  ev ∈ key_events hre DEPLOYER_PK_FILE "Deployer account: "
                  "Deployer key exists. Not overwriting" (dir_after w) ∨
  ev ∈ key_events hre OTHER_PK_FILE "Other account  : "
                  "Other key exists. Not overwriting" (deployer_after hre w).
Proof.
  unfold generate_events. intros H. apply elem_of_app in H as [H|H];
    [by left|].
  destruct (key_result _ _); [by right | by apply elem_of_nil in H].
Qed.

(** X7. [generate_accounts] prints addresses, never keys it was handed
    for printing: every line it passes to [console.log] is one of the two
    lines saying that a key exists, or the account line of a wallet it
    drew, built from the wallet's address. A private key is passed only to
    [writeFileSync], and only for a key file that did not exist when its
    step began. *)
Theorem generate_accounts_output (hre : Hre) (w : World) :
  ∃ evs,
    trace (generate_accounts hre w).2 = trace w ++ evs ∧
    (∀ line, ConsoleLog line ∈ evs →
       line = "Deployer key exists. Not overwriting" ∨
       line = "Other key exists. Not overwriting" ∨
       ∃ n acc, createRandom hre n = Return acc ∧
                (line = "Deployer account: " +:+ w_address acc ∨
                 line = "Other account  : " +:+ w_address acc)) ∧
    (∀ fd data, WriteFd fd data ∈ evs →
       ∃ n acc, createRandom hre n = Return acc ∧ data = privateKey acc) ∧
    (∀ fd data, WriteFd fd data ∈ evs →
       Fs.exists_path w DEPLOYER_PK_FILE = false ∨
       Fs.exists_path w OTHER_PK_FILE = false).
Proof.
  exists (Mkdir ".config" :: generate_events hre w).
  split; [rewrite generate_accounts_world; apply generate_after_trace|].
  split; [|split].
  - intros line H. apply elem_of_cons in H as [H|H]; [discriminate|].
    apply generate_events_split in H as [H|H];
      apply key_events_lines in H as [->|(acc & Hr & ->)]; eauto 10.
  - intros fd data H. apply elem_of_cons in H as [H|H]; [discriminate|].
    apply generate_events_split in H as [H|H];
      apply key_events_writes in H as (acc & Hr & -> & _); eauto.
  - intros fd data H. apply elem_of_cons in H as [H|H]; [discriminate|].
    destruct key_paths_not_dir as [HnD HnO].
    apply generate_events_split in H as [H|H];
      apply key_events_writes in H as (_ & _ & _ & Hex).
    + left. by rewrite dir_after_exists_path in Hex.
    + right. unfold deployer_after in Hex.
      rewrite key_after_exists_other in Hex
        by (intros E; symmetry in E; by apply key_files_differ).
      by rewrite dir_after_exists_path in Hex.
Qed.

(** ** Loading [deployerAccount], the remaining cases *)

(** X8. Loading never fails and never fails silently. [deployerAccount]
    returns normally in every world and changes nothing but the trace;
    when it yields no account, its last event is a line on the console
    ([console.log] or [console.error]); when it yields one, nothing was
    printed. *)
Theorem deployerAccount_total (w : World) :
  ∃ v evs,
    deployerAccount w = (Return v, emits evs w) ∧
    (v = None →
       ∃ ev, last evs = Some ev ∧
             ((∃ line, ev = ConsoleLog line) ∨ (∃ e, ev = ConsoleError e))) ∧
    (is_Some v →
       ∀ ev, ev ∈ evs → ev = ReadFile DEPLOYER_PK_FILE).
Proof.
  unfold deployerAccount, Fs.readFileSync. run.
  destruct (truthy_string _) eqn:Henv; simpl.
  { exists (Some [str (environ w !! "DEPLOYER_PK")]), [].
    rewrite emits_nil. split; [reflexivity|].
    split; [discriminate|]. intros _ ev H. in_events. }
  destruct (files w !! DEPLOYER_PK_FILE) as [f|] eqn:Hf; simpl;
    [|case_bool_decide; simpl];
    try (destruct (read_fault (os w) DEPLOYER_PK_FILE) as [e|] eqn:Hr; simpl).
  all: try case_decide; simpl.
  all: eexists _, _; (split; [same_world|]).
  all: split;
         [intros Hv;
          first [discriminate Hv | eexists; split; [reflexivity|eauto]]
         |intros [x Hx];
          first [discriminate Hx | intros ev Hin; in_events; reflexivity]].
Qed.

(** X9. An empty [DEPLOYER_PK] is no override: with the variable unset or
    set to the empty string, a readable key file is read and its content
    is the account. *)
Theorem deployerAccount_falls_back_to_file (w : World) (f : FileNode) :
  environ w !! "DEPLOYER_PK" = None ∨ environ w !! "DEPLOYER_PK" = Some "" →
  files w !! DEPLOYER_PK_FILE = Some f →
  read_fault (os w) DEPLOYER_PK_FILE = None →
  deployerAccount w
    = (Return (Some [f_data f]), emits [ReadFile DEPLOYER_PK_FILE] w).
Proof.
  intros Henv Hf Hread. apply deployerAccount_reads_file; try done.
  by destruct Henv as [->| ->].
Qed.

Lemma deployerAccount_empty_override :
  let w := mkWorld {[DEPLOYER_PK_FILE := mkFile 384 "key-on-disk"]} ∅
             Scenario.stdio {["DEPLOYER_PK" := ""]}
             config_networks 0 Scenario.quiet 18 [] in
  deployerAccount w
    = (Return (Some ["key-on-disk"]), emits [ReadFile DEPLOYER_PK_FILE] w).
Proof.
  apply (deployerAccount_falls_back_to_file
           (mkWorld {[DEPLOYER_PK_FILE := mkFile 384 "key-on-disk"]} ∅
              Scenario.stdio {["DEPLOYER_PK" := ""]}
              config_networks 0 Scenario.quiet 18 [])
           (mkFile 384 "key-on-disk"));
    [right|..]; reflexivity.
Defined.

(** X10. A key file that is there but cannot be read gives no account:
    with no usable override, a read that fails with an error other than
    [ENOENT] passes that error to [console.error], and the loading returns
    normally without an account. *)
Theorem deployerAccount_unreadable (w : World) (f : FileNode) (e : Error) :
  truthy_string (environ w !! "DEPLOYER_PK") = false →
  files w !! DEPLOYER_PK_FILE = Some f →
  read_fault (os w) DEPLOYER_PK_FILE = Some e →
  code e ≠ Some "ENOENT" →
  deployerAccount w
    = (Return None, emits [ReadFile DEPLOYER_PK_FILE; ConsoleError e] w).
Proof.
  intros Henv Hf Hread Hcode. unfold deployerAccount, Fs.readFileSync. run.
  rewrite Henv. simpl. rewrite Hf. simpl. rewrite Hread. simpl.
  rewrite decide_False by done. simpl. same_world.
Qed.

Lemma deployerAccount_io_error :
  deployerAccount Fixture.unreadable_key
    = (Return None,
       emits [ReadFile DEPLOYER_PK_FILE; ConsoleError Fixture.io_error]
             Fixture.unreadable_key).
Proof.
  apply (deployerAccount_unreadable Fixture.unreadable_key
           (mkFile 384 "key-a") Fixture.io_error);
    try reflexivity.
  discriminate.
Defined.

(** ** Forking with the network table of the file *)

(** The profiles of the table, by name. *)
Lemma config_networks_get (key : string) (p : NetworkConfig) :
  networks_get config_networks key = Some p →
  (key, p) ∈
    [("hardhat", mkNetwork None (Some 31337));
     ("localhost", mkNetwork (Some "http://127.0.0.1:8545") None);
     ("bsc", mkNetwork (Some "https://bsc-dataseed.binance.org/") (Some 56));
     ("heco", mkNetwork (Some "https://http-mainnet.hecochain.com") (Some 128));
     ("avax", mkNetwork (Some "https://api.avax.network/ext/bc/C/rpc")
                        (Some 43114));
     ("polygon", mkNetwork (Some "https://speedy-nodes-nyc.moralis.io/64b5b48009c1b462c3173a1c/polygon/mainnet") (Some 137));
     ("fantom", mkNetwork (Some "https://rpc.ftm.tools") (Some 250));
     ("testnet", mkNetwork (Some "https://data-seed-prebsc-1-s1.binance.org:8545/") (Some 97))].
Proof.
  unfold networks_get, config_networks. simpl.
  repeat (case_decide; [subst; intros [= <-]; set_solver|]).
  repeat (rewrite lookup_insert; case_decide;
          [subst; intros [= <-]; set_solver|]).
  rewrite lookup_empty. discriminate.
Qed.

(** X11. With the network table of the file, fork resolution overrides
    the chain identifier whenever the profile declares one. For every fork
    identifier: if it names a profile of the file that declares a chain
    identifier, that identifier is not zero and, after [node], it is the
    chain identifier of both [hardhat] and [localhost]; the only profile
    without one is [localhost], and forking from it leaves the table as it
    is. *)
Theorem node_on_file_networks (taskArgs : NodeArgs)
  (runSuper : NodeArgs → M World unit) (w : World) :
  networks w = config_networks →
  let key := str (fork taskArgs) in
  (∀ p c, networks_get config_networks key = Some p → chainId p = Some c →
     c ≠ 0 ∧
     ∃ w', node taskArgs runSuper w
             = runSuper (mkNodeArgs (url p) true false (others taskArgs)) w' ∧
           chainId (hardhat (networks w')) = Some c ∧
           chainId (localhost (networks w')) = Some c) ∧
  (∀ p, networks_get config_networks key = Some p → chainId p = None →
     key = "localhost" ∧
     ∃ w', node taskArgs runSuper w
             = runSuper (mkNodeArgs (url p) true false (others taskArgs)) w' ∧
           networks w' = config_networks).
Proof.
  intros Hnet key. split.
  - intros p c Hp Hc.
    assert (Hz : c ≠ 0).
    { apply config_networks_get in Hp. in_events; simpl in Hc;
        simplify_eq; done. }
    split; [exact Hz|].
    exists (forked_world key p w). split.
    + unfold node, networks_index, forked_world. run. fold key.
      rewrite Hnet, Hp. simpl.
      destruct (truthy_number (chainId p)); reflexivity.
    + unfold forked_world, truthy_number. rewrite Hc.
      apply Z.eqb_neq in Hz. rewrite Hz. split; reflexivity.
  - intros p Hp Hc. split.
    { apply config_networks_get in Hp. in_events; simpl in Hc;
        simplify_eq; done. }
    exists (forked_world key p w). split.
    + unfold node, networks_index, forked_world. run. fold key.
      rewrite Hnet, Hp. simpl.
      destruct (truthy_number (chainId p)); reflexivity.
    + unfold forked_world. rewrite Hc. exact Hnet.
Qed.

Lemma node_fork_polygon :
  let args := mkNodeArgs (Some "polygon") false true ∅ in
  let key := str (fork args) in
  (∀ p c, networks_get config_networks key = Some p → chainId p = Some c →
     c ≠ 0 ∧
     ∃ w', node args (λ _, emit RunSuper) Scenario.fresh_checkout
             = emit RunSuper w' ∧
           chainId (hardhat (networks w')) = Some c ∧
           chainId (localhost (networks w')) = Some c) ∧
  (∀ p, networks_get config_networks key = Some p → chainId p = None →
     key = "localhost" ∧
     ∃ w', node args (λ _, emit RunSuper) Scenario.fresh_checkout
             = emit RunSuper w' ∧
           networks w' = config_networks).
Proof.
  apply (node_on_file_networks (mkNodeArgs (Some "polygon") false true ∅)
           (λ _, emit RunSuper) Scenario.fresh_checkout).
  reflexivity.
Defined.

(** ** Executor tasks are single-shot *)

Ltac single_shot_proof task :=
  intros hre strat w; unfold task; run; executor_cases hre strat;
  eexists _, _; (split; [same_world|]); simpl;
  (split; [|split]); eauto 10.

(** X12. [panic], [unpause] and [harvest] never retry and never call
    another method: a run submits at most one transaction, the method of
    the task on the resolved strategy with no argument, waits at most
    once, for the transaction it submitted, and prints at most one
    line. *)
Theorem executor_single_shot :
  single_shot panic "panic" ∧
  single_shot unpause "unpause" ∧
  single_shot harvest "harvest".
Proof.
  split; [|split].
  - single_shot_proof panic.
  - single_shot_proof unpause.
  - single_shot_proof harvest.
Qed.

(** ** More on the ownership transfer *)

(** X13. [transfer] submits nothing but ownership transfers signed by the
    deployer. In every run there are at most two submissions, and each is
    [transferOwnership], sent through the signer obtained for the named
    account [deployer], either to the resolved vault with the named
    account [vaultOwner] or to the resolved strategy with the named
    account [stratOwner]. *)
Theorem transfer_submissions (hre : Hre) (vault : string) (w : World) :
  ∃ evs r,
    transfer hre vault w = (r, emits evs w) ∧
    (length (submissions evs) ≤ 2)%nat ∧
    (∀ t s m a, (t, s, m, a) ∈ submissions evs →
       m = "transferOwnership" ∧
       ∃ accounts sg d,
         getNamedAccounts hre = Return accounts ∧
         getSigner hre (accounts !! "deployer") = Return sg ∧
         s = Some sg ∧ t = d_address d ∧
         ((deployments_get hre (vault +:+ "-vault") = Return d ∧
           a = [accounts !! "vaultOwner"]) ∨
          (deployments_get hre (vault +:+ "-strat") = Return d ∧
           a = [accounts !! "stratOwner"]))).
Proof.
  unfold transfer. run. outcomes.
  all: eexists _, _; (split; [same_world|]); simpl.
  all: split; [lia|].
  all: intros tgt sgn mth args Hin; in_events.
  all: split; [reflexivity|].
  all: eexists _, _, _; repeat split; eauto.
Qed.

(** X14. No rollback. When the vault step went through and a later call
    fails, [transfer] ends with that error after the events of the vault
    step: the vault transfer stays submitted and confirmed, [done] is not
    printed, and what follows holds no submission other than, at most, the
    strategy transfer itself. *)
Theorem transfer_partial (hre : Hre) (vault : string) (w : World)
  (accounts : gmap string string) (sg : string) (dv : Deployment)
  (txv : Tx) (e : Error) :
  getNamedAccounts hre = Return accounts →
  getSigner hre (accounts !! "deployer") = Return sg →
  deployments_get hre (vault +:+ "-vault") = Return dv →
  send hre (Ownable_connect (d_address dv) sg) "transferOwnership"
       [accounts !! "vaultOwner"] = Return txv →
  wait txv = Return tt →
  first_failure hre vault = Some e →
  ∃ rest,
    transfer hre vault w
      = (Throw e, emits (vault_events vault accounts sg dv txv ++ rest) w) ∧
    (ConsoleLog "done" ∉ rest) ∧
    (submissions rest = [] ∨
     ∃ ds, deployments_get hre (vault +:+ "-strat") = Return ds ∧
           submissions rest =
             [(d_address ds, Some sg, "transferOwnership",
               [accounts !! "stratOwner"])]).
Proof.
  intros Ha Hg Hd Hs Hw. unfold transfer, first_failure, vault_events. run.
  rewrite Ha; simpl. rewrite Hg; simpl. rewrite Hd; simpl.
  rewrite Hs; simpl. rewrite Hw; simpl.
  outcomes; intros Hf; simplify_eq.
  all: eexists; (split; [same_world|]).
  all: (split; [intros Hin; in_events|]); simpl; eauto.
Qed.

Lemma transfer_partial_foo :
  ∃ rest,
    transfer Fixture.hre_no_strat "foo" Scenario.fresh_checkout
      = (Throw Scenario.no_deployment,
         emits (vault_events "foo" Scenario.named_accounts "0xD0"
                  (mkDeployment "@foo-vault")
                  (mkTx "tx:@foo-vault" (Return tt)) ++ rest)
               Scenario.fresh_checkout) ∧
    (ConsoleLog "done" ∉ rest) ∧
    (submissions rest = [] ∨
     ∃ ds, deployments_get Fixture.hre_no_strat ("foo" +:+ "-strat")
             = Return ds ∧
           submissions rest =
             [(d_address ds, Some "0xD0", "transferOwnership",
               [Scenario.named_accounts !! "stratOwner"])]).
Proof.
  apply (transfer_partial Fixture.hre_no_strat "foo" Scenario.fresh_checkout
           Scenario.named_accounts "0xD0" (mkDeployment "@foo-vault")
           (mkTx "tx:@foo-vault" (Return tt)) Scenario.no_deployment);
    reflexivity.
Defined.

(** X15. [done] means done. In every run of [transfer], the line [done]
    is printed exactly when no call failed; it is then the last event, the
    task returns normally, and two transactions were submitted and two
    confirmations awaited. *)
Theorem transfer_done (hre : Hre) (vault : string) (w : World) :
  ∃ evs r,
    transfer hre vault w = (r, emits evs w) ∧
    (ConsoleLog "done" ∈ evs ↔ first_failure hre vault = None) ∧
    (ConsoleLog "done" ∈ evs →
       r = Return tt ∧ last evs = Some (ConsoleLog "done") ∧
       length (submissions evs) = 2%nat ∧ length (waits evs) = 2%nat).
Proof.
  unfold transfer, first_failure. run. outcomes.
  all: eexists _, _; (split; [same_world|]).
  all: split; [split; [intros Hin; in_events; done | intros Hf]
              |intros Hin; in_events; repeat split].
  all: first [discriminate Hf
             |solve [repeat first [apply list_elem_of_here
                                  |apply list_elem_of_further]]].
Qed.

(** ** The two key steps do not depend on each other *)

Lemma key_events_opens (hre : Hre) (path created present : string)
  (w : World) :
  opens (key_events hre path created present w) = [path].
Proof.
  unfold key_events, report, closing. repeat case_match; reflexivity.
Qed.

(** X16. A failure in one key step does not stop the other, with one
    exception. Whatever fails in [generate_accounts] before a descriptor
    is closed (the directory, the creation of a file, the generation of a
    key, a write), the run starts with the attempt to create [.config] and
    makes exactly two exclusive creations, the deployer key file first and
    the other key file second. The second is skipped only when closing the
    deployer key file fails: that error is not caught, and it is the
    result of the task. *)
Theorem generate_accounts_attempts_both (hre : Hre) (w : World) :
  ∃ evs,
    trace (generate_accounts hre w).2 = trace w ++ Mkdir ".config" :: evs ∧
    (opens evs = [DEPLOYER_PK_FILE; OTHER_PK_FILE] ∨
     opens evs = [DEPLOYER_PK_FILE]) ∧
    (close_fault (os w) DEPLOYER_PK_FILE = None →
       opens evs = [DEPLOYER_PK_FILE; OTHER_PK_FILE]) ∧
    (opens evs = [DEPLOYER_PK_FILE] →
       ∃ e, close_fault (os w) DEPLOYER_PK_FILE = Some e ∧
            (generate_accounts hre w).1 = Throw e).
Proof.
  exists (generate_events hre w).
  split; [rewrite generate_accounts_world; apply generate_after_trace|].
  destruct (dir_after_frame w) as (_ & _ & _ & _ & Hos1 & _).
  rewrite generate_accounts_result.
  unfold generate_events, generate_result, opens. rewrite omap_app.
  fold opens. rewrite key_events_opens.
  destruct (key_result DEPLOYER_PK_FILE (dir_after w)) as [[]|e] eqn:Hr.
  - rewrite key_events_opens. simpl.
    split; [by left|]. split; [done|]. discriminate.
  - apply key_result_throws in Hr as (Hc & _). rewrite Hos1 in Hc.
    simpl. split; [by right|]. split; [congruence|]. eauto.
Qed.

(** ** Which key signs on which network *)

(** X17. One key for every live network. Each profile of the file that
    has an endpoint and declares a chain identifier (bsc, heco, avax,
    polygon, fantom, testnet) takes its accounts from [deployerAccount]
    as loaded; so a non-empty [DEPLOYER_PK] is the signing key on all of
    them. [localhost] signs remotely and [hardhat] keeps its default
    accounts, whatever was loaded. *)
Theorem config_accounts_from_loaded_key (w : World) :
  ∃ loaded,
    (deployerAccount w).1 = Return loaded ∧
    (∀ pk, environ w !! "DEPLOYER_PK" = Some pk → pk ≠ "" →
       loaded = Some [pk]) ∧
    (∀ name p u c,
       networks_get config_networks name = Some p →
       url p = Some u → chainId p = Some c →
       config_accounts loaded name = Some (AccountsKeys loaded)) ∧
    config_accounts loaded "localhost" = Some AccountsRemote ∧
    config_accounts loaded "hardhat" = Some AccountsDefault ∧
    (∀ name, networks_get config_networks name = None →
       config_accounts loaded name = None).
Proof.
  destruct (deployerAccount w) as [[loaded|e] w'] eqn:Hload.
  2:{ exfalso. unfold deployerAccount, Fs.readFileSync in Hload. run.
      repeat case_match; simplify_eq. }
  exists loaded. split; [reflexivity|]. split; [|split].
  - intros pk Hpk Hne. unfold deployerAccount in Hload. run.
    rewrite Hpk in Hload. simpl in Hload.
    apply String.eqb_neq in Hne. rewrite Hne in Hload. simpl in Hload.
    by simplify_eq.
  - intros name p u c Hp Hu Hc. apply config_networks_get in Hp.
    in_events; simpl in Hu, Hc; simplify_eq; reflexivity.
  - split; [reflexivity|]. split; [reflexivity|].
    intros name. unfold networks_get, config_networks, config_accounts.
    simpl. repeat (case_decide; [discriminate|]).
    repeat (rewrite lookup_insert; case_decide; [discriminate|]).
    intros _. repeat (case_decide; [congruence|]). reflexivity.
Qed.

(** ** The revised cases, run *)

(** Forking from [toString]: the table answers to the inherited name, so
    the task takes the fork branch with no endpoint. *)
Example node_fork_inherited_name :
  let args := mkNodeArgs (Some "toString") false true ∅ in
  let run := node args (λ a, if noReset a && negb (write a)
                             then console_log (str (fork a))
                             else emit RunSuper) Scenario.fresh_checkout in
  environ run.2 !! "HARDHAT_DEPLOY_FORK" = Some "toString" ∧
  networks run.2 = config_networks ∧
  trace run.2 = [ConsoleLog "Forking toString from RPC: undefined";
                 ConsoleLog "undefined"].
Proof. repeat split. Qed.

(** Under a mask that takes the owner's write bit, the key file is created
    read-only (0400 is 256). *)
Example generate_accounts_masked :
  let w := mkWorld ∅ ∅ Scenario.stdio ∅ config_networks 0 Scenario.quiet
                   191 [] in
  files (generate_accounts Scenario.hre_ok w).2 !! DEPLOYER_PK_FILE
    = Some (mkFile 256 "key-0").
Proof. vm_compute. reflexivity. Qed.

(** When closing the deployer key file fails, the error leaves the task
    and the other key is not attempted; the descriptor is released. *)
Example generate_accounts_close_fails :
  let w := mkWorld ∅ ∅ Scenario.stdio ∅ config_networks 0
             (mkFaults (λ _, None) (λ _, None) (λ _, None) (λ _, None)
                       (λ _, Some Fixture.io_error)) 18 [] in
  (generate_accounts Scenario.hre_ok w).1 = Throw Fixture.io_error ∧
  fds (generate_accounts Scenario.hre_ok w).2 = Scenario.stdio ∧
  trace (generate_accounts Scenario.hre_ok w).2 =
    [Mkdir ".config";
     OpenWx DEPLOYER_PK_FILE 384; CreateRandom; WriteFd 3 "key-0";
     ConsoleLog "Deployer account: 0xF0"; CloseFd 3].
Proof. vm_compute. repeat split. Qed.

(** Where [.config] is a regular file, the key file is not there and the
    read is refused with [ENOTDIR]: the error goes to [console.error]. *)
Example deployer_key_not_a_directory :
  let enotdir := mkError (Some "ENOTDIR")
                   "Error: ENOTDIR: not a directory, open" in
  let w := mkWorld {[".config" := mkFile 420 ""]} ∅ Scenario.stdio ∅
             config_networks 0
             (mkFaults (λ _, None) (λ _, None) (λ _, None)
                       (λ _, Some enotdir) (λ _, None)) 18 [] in
  deployerAccount w
    = (Return None, emits [ReadFile DEPLOYER_PK_FILE; ConsoleError enotdir] w).
Proof. reflexivity. Qed.
